(** * A shallow embedding of the Yelp outreach bot (src/agent.py, src/bot.py)

    The development follows the two source files.  Part I embeds the code:
    the Python string and [re] operations the program uses, the agent
    (history buffer, business search), and the bot commands in a small
    state-and-exception monad whose remote calls are answered by an
    environment.  Part II states and proves the properties.

    Conventions.
    - A Python [str] is a Rocq [string], one [ascii] per character; the
      character classes below ([\d], [\s], [str.strip]) are those of Python
      on the code points U+0000..U+00FF.  The literals of the program that
      hold characters beyond that range (the pictographs of the user-facing
      messages) are transcribed byte for byte from the source files; the
      program only concatenates and compares them.
    - Python [int]s are [Z]; list positions and lengths are [nat].
    - A Python [dict] keyed by user or channel id is a [gmap Z _]; the
      [answers] dict, whose insertion order is observable, is an
      association list with the dict's update-in-place insertion. *)

From Stdlib Require Import ZArith Lia Ascii String.
From stdpp Require Import gmap strings list pretty.

(* ===================================================================== *)
(** * Part I.  The embedding                                              *)
(* ===================================================================== *)

(** ** Python string operations *)

Module Py.

Definition code (c : ascii) : N := N_of_ascii c.

(** Unicode category Nd below U+0100: the ten ASCII digits. *)
Definition is_digit (c : ascii) : bool :=
  ((48 <=? code c) && (code c <=? 57))%N.

(** [str.isspace] below U+0100: TAB..CR, FS..US, space, NEL, NBSP. *)
Definition is_space (c : ascii) : bool :=
  let n := code c in
  (((9 <=? n) && (n <=? 13)) || ((28 <=? n) && (n <=? 32))
   || (n =? 133) || (n =? 160))%N.

Definition newline : ascii := ascii_of_N 10.
Definition nl : string := String newline EmptyString.

Definition is_empty (s : string) : bool :=
  match s with EmptyString => true | String _ _ => false end.

(** [len(s)] *)
Definition len (s : string) : nat := String.length s.

(** [s[i:j]] for [0 <= i]: Python clamps both ends to the string. *)
Definition slice (i j : nat) (s : string) : string :=
  String.substring i (j - i) s.

(** [s.lstrip()], [s.rstrip()], [s.strip()] *)
Fixpoint lstrip (s : string) : string :=
  match s with
  | EmptyString => EmptyString
  | String c s' => if is_space c then lstrip s' else s
  end.

Fixpoint rstrip (s : string) : string :=
  match s with
  | EmptyString => EmptyString
  | String c s' =>
      let r := rstrip s' in
      if is_space c && is_empty r then EmptyString else String c r
  end.

Definition strip (s : string) : string := rstrip (lstrip s).

(** [s.startswith(p)] *)
Definition startswith (p s : string) : bool := String.prefix p s.

(** [needle in hay] *)
Fixpoint contains (needle hay : string) : bool :=
  String.prefix needle hay
  || match hay with
     | EmptyString => false
     | String _ hay' => contains needle hay'
     end.

(** [s.split(sep)] for a non-empty separator: the pieces between the
    non-overlapping occurrences of [sep], found left to right.  [skip]
    counts the characters of an occurrence still to be passed over. *)
Fixpoint split_go (sep : string) (skip : nat) (s : string)
  : string * list string :=
  match s with
  | EmptyString => (EmptyString, [])
  | String c s' =>
      match skip with
      | S k => split_go sep k s'
      | O =>
          if String.prefix sep s
          then let '(p, ps) := split_go sep (String.length sep - 1) s' in
               (EmptyString, p :: ps)
          else let '(p, ps) := split_go sep 0 s' in
               (String c p, ps)
      end
  end.

Definition split (sep s : string) : list string :=
  let '(p, ps) := split_go sep 0 s in p :: ps.

(** [s.replace(old, new)] for a non-empty [old]. *)
Fixpoint replace_go (old new : string) (skip : nat) (s : string) : string :=
  match s with
  | EmptyString => EmptyString
  | String c s' =>
      match skip with
      | S k => replace_go old new k s'
      | O =>
          if String.prefix old s
          then new +:+ replace_go old new (String.length old - 1) s'
          else String c (replace_go old new 0 s')
      end
  end.

Definition replace (old new s : string) : string := replace_go old new 0 s.

(** [sep.join(l)] *)
Definition join (sep : string) (l : list string) : string :=
  String.concat sep l.

(** [range(start, stop, step)] for a positive [step]: the loop
    [i = start; while i < stop: yield i; i += step].  Each turn moves [i]
    at least one closer to [stop], so [stop - start] turns are enough. *)
Fixpoint range_from (fuel i stop step : nat) : list nat :=
  match fuel with
  | O => []
  | S fuel' =>
      if i <? stop then i :: range_from fuel' (i + step) stop step else []
  end.

Definition range (start stop step : nat) : list nat :=
  range_from (stop - start) start stop step.

(** [l[-n:]] for [n > 0]: the last [n] elements, the whole list when it
    is shorter. *)
Definition last_n {A} (n : nat) (l : list A) : list A :=
  drop (length l - n) l.

(** [s[i:]] *)
Definition slice_from (i : nat) (s : string) : string :=
  String.substring i (String.length s - i) s.

(** [s.title()] below U+0100.  The cased characters are the letters
    A-Z and a-z, the Latin-1 capitals U+00C0..U+00DE and small letters
    U+00DF..U+00FF (the signs U+00D7 and U+00F7 apart), and the three
    lower-case characters U+00AA, U+00B5 and U+00BA.  A character that
    follows a cased one is lowered; any other is title-cased, which for
    U+00DF gives the two letters "Ss" and for U+00B5 and U+00FF a
    character beyond U+00FF (U+039C, U+0178), written like the program's
    literals of that range, in its UTF-8 bytes. *)
Definition is_upper (c : ascii) : bool :=
  let n := code c in
  (((65 <=? n) && (n <=? 90))
   || ((192 <=? n) && (n <=? 222) && negb (n =? 215)))%N.
Definition is_lower (c : ascii) : bool :=
  let n := code c in
  (((97 <=? n) && (n <=? 122))
   || ((223 <=? n) && (n <=? 255) && negb (n =? 247))
   || (n =? 170) || (n =? 181) || (n =? 186))%N.
Definition to_lower (c : ascii) : ascii :=
  if is_upper c then ascii_of_N (code c + 32) else c.
Definition to_title (c : ascii) : string :=
  let n := code c in
  if (n =? 223)%N then "Ss"
  else if (n =? 181)%N
       then String (ascii_of_N 206) (String (ascii_of_N 156) EmptyString)
  else if (n =? 255)%N
       then String (ascii_of_N 197) (String (ascii_of_N 184) EmptyString)
  else if (is_lower c && negb ((n =? 170) || (n =? 186)))%N
       then String (ascii_of_N (n - 32)) EmptyString
  else String c EmptyString.

Fixpoint title_go (prev_cased : bool) (s : string) : string :=
  match s with
  | EmptyString => EmptyString
  | String c s' =>
      (if prev_cased then String (to_lower c) EmptyString else to_title c)
      +:+ title_go (is_upper c || is_lower c) s'
  end.

Definition title (s : string) : string := title_go false s.

(** [int(s)] in base 10: white space around the number is ignored, one
    sign is allowed, and single underscores may separate digits.
    [None] stands for the ValueError.  The white space [int] ignores is
    not that of [str.strip]: the separators U+001C..U+001F are no white
    space to it. *)
Definition digit_value (c : ascii) : Z := Z.of_N (code c - 48).

Definition is_int_space (c : ascii) : bool :=
  let n := code c in
  (((9 <=? n) && (n <=? 13)) || (n =? 32) || (n =? 133) || (n =? 160))%N.

Fixpoint int_lstrip (s : string) : string :=
  match s with
  | EmptyString => EmptyString
  | String c s' => if is_int_space c then int_lstrip s' else s
  end.

Fixpoint int_rstrip (s : string) : string :=
  match s with
  | EmptyString => EmptyString
  | String c s' =>
      let r := int_rstrip s' in
      if is_int_space c && is_empty r then EmptyString else String c r
  end.

Fixpoint int_digits (acc : Z) (after_digit : bool) (s : string) : option Z :=
  match s with
  | EmptyString => if after_digit then Some acc else None
  | String c s' =>
      if is_digit c then int_digits (10 * acc + digit_value c) true s'
      else if Ascii.eqb c "_" && after_digit then int_digits acc false s'
      else None
  end.

Definition int (s : string) : option Z :=
  match int_rstrip (int_lstrip s) with
  | String "-" t => Z.opp <$> int_digits 0 false t
  | String "+" t => int_digits 0 false t
  | t => int_digits 0 false t
  end.

(** [str(n)] for an [int] *)
Definition str_int (n : Z) : string := pretty n.

(** [f"{n:02d}"]: the sign counts for the width of two. *)
Definition format_02d (n : Z) : string :=
  if (n <? 0)%Z then str_int n
  else if (n <? 10)%Z then "0" +:+ str_int n
  else str_int n.

(** [d[k] = v] on a dict with string keys and values, kept in insertion
    order: an existing key keeps its place. *)
Definition dict : Type := list (string * string).

Fixpoint dict_set (d : dict) (k v : string) : dict :=
  match d with
  | [] => [(k, v)]
  | (k', v') :: d' =>
      if String.eqb k' k then (k', v) :: d' else (k', v') :: dict_set d' k v
  end.

End Py.

(** ** The fragment of Python's [re] the program uses

    Every pattern in the two files is a sequence of anchors and greedily
    repeated character classes.  [Rep p lo hi] is the class [p] repeated
    between [lo] and [hi] times ([None]: unbounded), longest first with
    backtracking, as the [re] engine does. *)

Module Re.

Inductive item : Type :=
| Bol                                   (* ^  : start of the string *)
| Eol                                   (* $  : end, or before a final \n *)
| Rep (p : ascii -> bool) (lo : nat) (hi : option nat).

Definition pattern := list item.

Definition one (p : ascii -> bool) : item := Rep p 1 (Some 1).
Definition lit (s : string) : pattern :=
  (fun c => one (Ascii.eqb c)) <$> list_ascii_of_string s.
(** [.] without DOTALL *)
Definition dot (c : ascii) : bool := negb (Ascii.eqb c Py.newline).

Definition at_eol (s : string) : bool :=
  match s with
  | EmptyString => true
  | String c EmptyString => Ascii.eqb c Py.newline
  | _ => false
  end.

Definition may_take (hi : option nat) : bool :=
  match hi with Some O => false | _ => true end.

(** [rep p k lo hi bol s]: the class [p] taken between [lo] and [hi]
    times at the head of [s], the longest run first; [k] matches what
    follows the repetition in the pattern. *)
Fixpoint rep (p : ascii -> bool) (k : bool -> string -> option string)
         (lo : nat) (hi : option nat) (bol : bool) (s : string)
  : option string :=
  let stop := match lo with O => k bol s | S _ => None end in
  match s with
  | String c s' =>
      if may_take hi && p c
      then match rep p k (Nat.pred lo) (Nat.pred <$> hi) false s' with
           | Some r => Some r
           | None => stop
           end
      else stop
  | EmptyString => stop
  end.

(** [match_here pat bol s]: the pattern matched at the head of [s], where
    [bol] tells whether the head of [s] is the start of the subject;
    returns what follows the match. *)
Fixpoint match_here (pat : pattern) (bol : bool) (s : string)
  : option string :=
  match pat with
  | [] => Some s
  | Bol :: pat' => if bol then match_here pat' bol s else None
  | Eol :: pat' => if at_eol s then match_here pat' bol s else None
  | Rep p lo hi :: pat' => rep p (match_here pat') lo hi bol s
  end.

(** [re.match(pat, s)] read as a truth value *)
Definition matches (pat : pattern) (s : string) : bool :=
  match match_here pat true s with Some _ => true | None => false end.

(** [re.sub(pat, repl, s)]: every match, left to right, is replaced.
    After a match of [n > 0] characters the scan resumes behind it; an
    empty match puts [repl] before the character it stands at. *)
Fixpoint sub_go (pat : pattern) (repl : string) (bol : bool) (skip : nat)
         (s : string) : string :=
  match skip with
  | S k =>
      match s with
      | String _ s' => sub_go pat repl false k s'
      | EmptyString => EmptyString
      end
  | O =>
      match match_here pat bol s with
      | Some rest =>
          match String.length s - String.length rest, s with
          | S n, String _ s' => repl +:+ sub_go pat repl false n s'
          | _, String c s' => repl +:+ String c (sub_go pat repl false 0 s')
          | _, EmptyString => repl
          end
      | None =>
          match s with
          | String c s' => String c (sub_go pat repl false 0 s')
          | EmptyString => EmptyString
          end
      end
  end.

Definition sub (pat : pattern) (repl s : string) : string :=
  sub_go pat repl true 0 s.

(** The patterns of the program. *)
Definition zip_pattern : pattern :=                  (* r'^\d{5}$' *)
  [Bol; Rep Py.is_digit 5 (Some 5); Eol].
Definition numbered_pattern : pattern :=             (* r'^\d+\.' *)
  [Bol; Rep Py.is_digit 1 None; one (Ascii.eqb ".")].
Definition number_prefix_pattern : pattern :=        (* r'^\d+\.\s*' *)
  [Bol; Rep Py.is_digit 1 None; one (Ascii.eqb "."); Rep Py.is_space 0 None].

End Re.


(** ** Values exchanged with the chat platform and the two remote APIs *)

(** A [discord.Message], as far as the program reads it. *)
Record message : Type := Message {
  msg_author : Z;                 (* message.author (its id) *)
  msg_author_bot : bool;          (* message.author.bot *)
  msg_content : string            (* message.content *)
}.

(** One role-tagged turn of a completion request. *)
Record turn : Type := Turn { turn_role : string; turn_content : string }.

(** An element of a channel's stored history: [run] appends
    [discord.Message] objects and inserts one plain dict. *)
Inductive entry : Type :=
| Msg (m : message)
| Dict (t : turn).

(** A summary record of [search_response['businesses']].  The keys the
    code subscripts are fields; the keys it reads with [.get] are options.
    [biz_rating] is the text [str()] gives the rating number. *)
Record business : Type := Business {
  biz_id : string;
  biz_name : string;
  biz_display_phone : option string;
  biz_display_address : list string;
  biz_rating : string;
  biz_review_count : Z;
  biz_url : option string
}.

(** The detail record of [business_query]. *)
Record open_slot : Type := OpenSlot {
  slot_day : Z; slot_start : string; slot_end : string
}.

Record hours_entry : Type := HoursEntry {
  hours_is_open_now : option bool;
  hours_open : option (list open_slot)
}.

Record details : Type := Details {
  det_url : option string;
  det_hours : option (list hours_entry);
  det_transactions : option (list string);
  det_price : option string;
  det_categories : option (list string)      (* the 'title' of each *)
}.

(** The session [get] stores in [user_context]. *)
Record session : Type := Session {
  business_type : string;
  zipcode : string;
  answers : Py.dict
}.

(** ** Exceptions, remote calls and the environment *)

Inductive exn : Type :=
| TimeoutError                   (* asyncio.TimeoutError *)
| Error (what : string)          (* any other subclass of Exception *)
| Exit (what : string).          (* a BaseException outside Exception *)

(** What [except Exception] catches. *)
Definition is_exception (e : exn) : bool :=
  match e with Exit _ => false | _ => true end.

(** [str(e)] *)
Definition exn_str (e : exn) : string :=
  match e with TimeoutError => "" | Error w => w | Exit w => w end.

Inductive outcome (A : Type) : Type :=
| Ok (a : A)
| Raise (e : exn).
Arguments Ok {A} a.
Arguments Raise {A} e.

(** The calls that leave the process. *)
Inductive call : Type :=
| Send (text : string)                       (* ctx.send / channel.send *)
| Delete                                     (* sent_message.delete() *)
| WaitFor (timeout : Z)                      (* bot.wait_for('message', ...) *)
| History (limit : nat)                      (* channel.history(limit=...) *)
| Complete (messages : list turn)            (* client.chat.complete_async *)
| SearchQuery (term location : string)       (* yelp_client.search_query *)
| BusinessQuery (id : string).               (* yelp_client.business_query *)

Definition is_api_call (c : call) : bool :=
  match c with
  | Complete _ | SearchQuery _ _ | BusinessQuery _ => true
  | _ => false
  end.

(** The commands of bot.py a user can invoke, each with the arguments its
    function takes.  [shutdown], which ends the process, is left out, and
    so is the [help] command the chat library adds of its own. *)
Inductive command : Type :=
| CmdPing (arg : option string)
| CmdAsk (arg : option string)
| CmdSearch (term zipcode : string)
| CmdGet
| CmdMessage (business_number : string) (message : option string)
| CmdList
| CmdInitiate
| CmdDraft
| CmdSendMessage (business_number : string)
| CmdWelcome.

(** The environment answers a call by its number among the calls made so
    far.  [channel_log] is the channel's messages, oldest first, at that
    moment.  [on_dispatch] is the command parser of the chat library
    ([commands.Bot], line 26 of bot.py): the command a message that starts
    with the prefix names, with its arguments converted, if it names
    one. *)
Record env : Type := Env {
  on_send : nat -> string -> outcome unit;
  on_delete : nat -> outcome unit;
  on_wait_for : nat -> outcome string;
  channel_log : nat -> outcome (list message);
  on_complete : nat -> list turn -> outcome string;
  on_search_query : nat -> string -> string -> outcome (option (list business));
  on_business_query : nat -> string -> outcome details;
  yelp_api_key : option string;               (* os.getenv("YELP_API_KEY") *)
  weekday : Z;                                (* datetime.now().weekday() *)
  bot_user : Z;                               (* bot.user *)
  on_dispatch : message -> option command
}.

(** The process state: the globals of bot.py, the agent's history map, and
    the record of the calls made so far. *)
Record state : Type := State {
  interactive_session_active : bool;
  user_context : gmap Z session;
  channel_history : gmap Z (list entry);
  trace : list call
}.

Definition initial_state : state :=
  {| interactive_session_active := false;
     user_context := ∅;
     channel_history := ∅;
     trace := [] |}.

Definition set_interactive (b : bool) (st : state) : state :=
  {| interactive_session_active := b;
     user_context := user_context st;
     channel_history := channel_history st;
     trace := trace st |}.

Definition set_user_context (u : gmap Z session) (st : state) : state :=
  {| interactive_session_active := interactive_session_active st;
     user_context := u;
     channel_history := channel_history st;
     trace := trace st |}.

Definition set_channel_history (h : gmap Z (list entry)) (st : state) : state :=
  {| interactive_session_active := interactive_session_active st;
     user_context := user_context st;
     channel_history := h;
     trace := trace st |}.

Definition record_call (c : call) (st : state) : state :=
  {| interactive_session_active := interactive_session_active st;
     user_context := user_context st;
     channel_history := channel_history st;
     trace := trace st ++ [c] |}.

(** ** The monad of the program: state and exceptions *)

Definition M (A : Type) : Type := state -> outcome A * state.

Definition ret {A} (a : A) : M A := fun st => (Ok a, st).

Definition raise {A} (e : exn) : M A := fun st => (Raise e, st).

Definition bind {A B} (m : M A) (k : A -> M B) : M B :=
  fun st =>
    match m st with
    | (Ok a, st') => k a st'
    | (Raise e, st') => (Raise e, st')
    end.

Notation "'do' x <- m ; k" := (bind m (fun x => k))
  (at level 10, x name, m at level 99, k at level 200).
Notation "m ;; k" := (bind m (fun _ => k))
  (at level 100, k at level 200, right associativity).

Definition read {A} (f : state -> A) : M A := fun st => (Ok (f st), st).
Definition modify (f : state -> state) : M unit := fun st => (Ok tt, f st).

Definition lift {A} (o : outcome A) : M A := fun st => (o, st).

(** [try: body  except Exception as e: handler e] *)
Definition try_except {A} (body : M A) (handler : exn -> M A) : M A :=
  fun st =>
    match body st with
    | (Raise e, st') => if is_exception e then handler e st' else (Raise e, st')
    | r => r
    end.

(** [try: body  except asyncio.TimeoutError: handler] *)
Definition try_except_timeout {A} (body : M A) (handler : M A) : M A :=
  fun st =>
    match body st with
    | (Raise TimeoutError, st') => handler st'
    | r => r
    end.

(** [try: body  finally: fin] *)
Definition try_finally {A} (body : M A) (fin : M unit) : M A :=
  fun st =>
    match body st with
    | (r, st') =>
        match fin st' with
        | (Ok _, st'') => (r, st'')
        | (Raise e, st'') => (Raise e, st'')
        end
    end.

(** A call that leaves the process: it is recorded, and the environment
    answers it by its number. *)
Definition remote {A} (c : call) (answer : nat -> outcome A) : M A :=
  fun st => (answer (length (trace st)), record_call c st).

Definition send (e : env) (text : string) : M unit :=
  remote (Send text) (fun n => on_send e n text).

Definition delete (e : env) : M unit := remote Delete (on_delete e).

Definition wait_for (e : env) (timeout : Z) : M string :=
  remote (WaitFor timeout) (on_wait_for e).

(** Modelled from the spec: [channel.history(limit=n)] of the chat
    platform, which "fetch[es] recent channel history (bounded count,
    reverse-chronological)": the [n] latest messages, latest first. *)
Definition history (e : env) (limit : nat) : M (list message) :=
  do log <- remote (History limit) (channel_log e);
  ret (take limit (reverse log)).

(** ** agent.py *)

Definition SYSTEM_PROMPT : string :=
  "You are a helpful assistant that helps users find local businesses on Yelp and automate email outreach to get the best offer for a specific task or service.".

Definition MAX_HISTORY : nat := 30.

Definition system_turn : turn := Turn "system" SYSTEM_PROMPT.

(** [MistralAgent._format_messages]: the loop reads [msg.author.bot] and
    [msg.content], which a dict does not have. *)
Fixpoint format_each (messages : list entry) (formatted : list turn)
  : outcome (list turn) :=
  match messages with
  | [] => Ok formatted
  | Msg m :: rest =>
      let role := if msg_author_bot m then "assistant" else "user" in
      format_each rest (formatted ++ [Turn role (msg_content m)])
  | Dict _ :: _ => Raise (Error "'dict' object has no attribute 'author'")
  end.

Definition _format_messages (messages : list entry) : outcome (list turn) :=
  format_each messages [system_turn].

(** [self.client.chat.complete_async(model, messages)] followed by
    [response.choices[0].message.content] *)
Definition complete (e : env) (messages : list turn) : M string :=
  remote (Complete messages) (fun n => on_complete e n messages).

(** [self.channel_history[channel_id]] of the [defaultdict(list)] *)
Definition stored_history (channel_id : Z) (st : state) : list entry :=
  default [] (channel_history st !! channel_id).

Definition store_history (channel_id : Z) (h : list entry) : M unit :=
  modify (fun st =>
            set_channel_history (<[channel_id := h]> (channel_history st)) st).

(** Lines 45-50 of [run]: an empty buffer is filled with the messages
    [channel.history] delivers, in the order it delivers them, and the
    system dict is then inserted at position 0. *)
Definition seed (e : env) (channel_id : Z) : M unit :=
  do h <- read (stored_history channel_id);
  match h with
  | [] =>
      do msgs <- history e MAX_HISTORY;
      store_history channel_id (Dict system_turn :: (h ++ (Msg <$> msgs)))
  | _ :: _ => ret tt
  end.

(** Lines 52-57 of [run] on the stored list: append, then keep the last
    [MAX_HISTORY] entries if there are more. *)
Definition append_capped (h : list entry) (m : entry) : list entry :=
  let h' := h ++ [m] in
  if MAX_HISTORY <? length h' then Py.last_n MAX_HISTORY h' else h'.

Definition append_message (channel_id : Z) (m : message) : M unit :=
  do h <- read (stored_history channel_id);
  store_history channel_id (append_capped h (Msg m)).

(** [MistralAgent.run] *)
Definition run (e : env) (channel_id : Z) (m : message) : M string :=
  seed e channel_id ;;
  append_message channel_id m ;;
  do h <- read (stored_history channel_id);
  do formatted_messages <- lift (_format_messages h);
  complete e formatted_messages.

(** [MistralAgent.run_with_text] *)
Definition run_with_text (e : env) (text : string) : M string :=
  complete e [system_turn; Turn "user" text].

(** *** [MistralAgent.yelp_search] *)

Definition truthy (o : option string) : bool :=
  match o with Some s => negb (Py.is_empty s) | None => false end.

Definition address_line (b : business) : string :=
  Py.join ", " (biz_display_address b).

Definition index_str (i : nat) : string := Py.str_int (Z.of_nat i).

(** Lines 166-171: today's opening hours, [None] for the ValueError of
    [int()]. *)
Definition hours_window (t : open_slot) : option string :=
  start_h ← Py.int (Py.slice 0 2 (slot_start t));
  end_h ← Py.int (Py.slice 0 2 (slot_end t));
  Some (Py.format_02d start_h +:+ ":" +:+ Py.slice_from 2 (slot_start t)
        +:+ "-"
        +:+ Py.format_02d end_h +:+ ":" +:+ Py.slice_from 2 (slot_end t)).

(** Lines 157-171: [status_parts] *)
Definition status_parts (today : Z) (d : details) : option (list string) :=
  let price := match det_price d with Some p => [p] | None => [] end in
  match det_hours d with
  | Some (h :: _) =>
      let is_open := default false (hours_is_open_now h) in
      let parts := price ++ [if is_open then "Open" else "Closed"] in
      match List.find (fun t => (slot_day t =? today)%Z)
                      (default [] (hours_open h)) with
      | Some t => w ← hours_window t; Some (parts ++ [w])
      | None => Some parts
      end
  | _ => Some price
  end.

(** Lines 149-196: the block of a business whose details arrived. *)
Definition render_detailed (today : Z) (i : nat) (b : business) (d : details)
  : option string :=
  let result_text :=
    [Py.nl +:+ "[" +:+ index_str i +:+ "] " +:+ biz_name b
     +:+ Py.nl +:+ "    📞 " +:+ default "N/A" (biz_display_phone b)
     +:+ Py.nl +:+ "    ⭐ " +:+ biz_rating b
     +:+ " (" +:+ Py.str_int (biz_review_count b) +:+ " reviews)"
     +:+ Py.nl +:+ "    📍 " +:+ address_line b] in
  parts ← status_parts today d;
  let result_text :=
    match parts with
    | [] => result_text
    | _ => result_text ++ ["    💫 " +:+ Py.join " • " parts]
    end in
  let result_text :=
    match take 3 <$> det_categories d with
    | Some (c :: cs) => result_text ++ ["    🏷️ " +:+ Py.join ", " (c :: cs)]
    | _ => result_text
    end in
  let result_text :=
    match det_transactions d with
    | Some (t :: ts) =>
        let transactions :=
          (fun t => Py.title (Py.replace "_" " " t)) <$> (t :: ts) in
        result_text ++ ["    💳 " +:+ Py.join ", " transactions]
    | _ => result_text
    end in
  let result_text :=
    if truthy (biz_url b)
    then result_text ++ ["    🔗 " +:+ default "" (biz_url b)]
    else result_text in
  let result_text :=
    if truthy (det_url d)
    then result_text ++ ["    🌐 " +:+ default "" (det_url d)]
    else result_text in
  Some (Py.join Py.nl result_text).

(** Lines 200-205: the block built from the summary record alone. *)
Definition render_fallback (i : nat) (b : business) : string :=
  Py.nl +:+ "[" +:+ index_str i +:+ "] " +:+ biz_name b
  +:+ Py.nl +:+ "    ⭐ " +:+ biz_rating b
  +:+ " (" +:+ Py.str_int (biz_review_count b) +:+ " reviews)"
  +:+ Py.nl +:+ "    📍 " +:+ address_line b
  +:+ Py.nl +:+ "    🔗 " +:+ default "N/A" (biz_url b).

Definition business_query (e : env) (id : string) : M details :=
  remote (BusinessQuery id) (fun n => on_business_query e n id).

Definition search_query (e : env) (term location : string)
  : M (option (list business)) :=
  remote (SearchQuery term location)
         (fun n => on_search_query e n term location).

(** Lines 125-205: the loop over [enumerate(businesses, 1)], each turn in
    its own [try ... except Exception]. *)
Fixpoint each_business (e : env) (i : nat) (businesses : list business)
         (results : list string) : M (list string) :=
  match businesses with
  | [] => ret results
  | b :: rest =>
      do results <-
        try_except
          (do d <- business_query e (biz_id b);
           match render_detailed (weekday e) i b d with
           | Some block => ret (results ++ [block])
           | None => raise (Error "invalid literal for int() with base 10")
           end)
          (fun _ => ret (results ++ [render_fallback i b]));
      each_business e (S i) rest results
  end.

Definition listing_header (term zipcode : string) : string :=
  "🔍 Top results for '" +:+ term +:+ "' in " +:+ zipcode +:+ ":".

Definition zipcode_error : string :=
  "Error: Please provide a valid 5-digit zipcode.".

Definition yelp_search (e : env) (term zipcode : string)
  : M (string * list business) :=
  if negb (Re.matches Re.zip_pattern zipcode)
  then ret (zipcode_error, [])
  else
    try_except
      (do search_response <- search_query e term zipcode;
       match search_response with
       | None | Some [] =>
           ret ("No results found for '" +:+ term +:+ "' in zipcode "
                +:+ zipcode +:+ ".", [])
       | Some businesses =>
           let results := [listing_header term zipcode] in
           do results <- each_business e 1 businesses results;
           ret (Py.join Py.nl results, businesses)
       end)
      (fun ex => ret ("Error searching Yelp: " +:+ exn_str ex, [])).

(** ** bot.py *)

Definition dq : string := String (ascii_of_N 34) EmptyString.

(** [json.dumps(d, indent=2)] for a dict of strings, with the default
    [ensure_ascii]: everything outside the printable ASCII range is
    escaped. *)
Definition hex_digit (n : N) : ascii :=
  if (n <? 10)%N then ascii_of_N (48 + n) else ascii_of_N (87 + n).

Definition json_escape (c : ascii) : string :=
  let n := Py.code c in
  if (n =? 34)%N then "\" +:+ dq
  else if (n =? 92)%N then "\\"
  else if (n =? 8)%N then "\b"
  else if (n =? 12)%N then "\f"
  else if (n =? 10)%N then "\n"
  else if (n =? 13)%N then "\r"
  else if (n =? 9)%N then "\t"
  else if ((32 <=? n) && (n <=? 126))%N then String c EmptyString
  else "\u00" +:+ String (hex_digit (n / 16)) (String (hex_digit (n mod 16)) EmptyString).

Fixpoint json_string_body (s : string) : string :=
  match s with
  | EmptyString => EmptyString
  | String c s' => json_escape c +:+ json_string_body s'
  end.

Definition json_string (s : string) : string :=
  dq +:+ json_string_body s +:+ dq.

Definition json_dumps (d : Py.dict) : string :=
  match d with
  | [] => "{}"
  | _ =>
      "{" +:+ Py.nl
      +:+ Py.join ("," +:+ Py.nl)
            ((fun kv => "  " +:+ json_string kv.1 +:+ ": " +:+ json_string kv.2)
               <$> d)
      +:+ Py.nl +:+ "}"
  end.

(** Line 53 of [send_long_message], and the same line in [search] and
    [list_businesses]. *)
Definition chunks (content : string) : list string :=
  (fun i => Py.slice i (i + 1900) content)
    <$> Py.range 0 (Py.len content) 1900.

Fixpoint send_each (e : env) (pieces : list string) : M unit :=
  match pieces with
  | [] => ret tt
  | chunk :: rest => send e chunk ;; send_each e rest
  end.

Definition send_long_message (e : env) (content : string) : M unit :=
  send_each e (chunks content).

(** [search] *)
Definition search (e : env) (term zipcode : string) : M unit :=
  try_except
    (send e ("üîç Searching for '" +:+ term +:+ "' in " +:+ zipcode +:+ "...") ;;
     do found <- yelp_search e term zipcode;
     send_each e (chunks found.1) ;;
     delete e)
    (fun _ => send e "Sorry, I encountered an error while searching.").

(** *** [get_dynamic_questions] *)

Definition questions_prompt (business_type : string) : string :=
  "Given a user is looking for a " +:+ business_type +:+ ", generate a list of 4-6 relevant questions that would help gather information to request a quote or service details.
    The questions should be specific to this type of business/service and help draft a detailed message to the business.
    Format each question on a new line starting with a number and a period (e.g., " +:+ dq +:+ "1. Question text" +:+ dq +:+ ").
    Consider what information would be most relevant for this specific type of business to provide an accurate quote or service details.".

Definition fallback_questions : list string :=
  [ "What specific services do you need?";
    "When do you need this service?";
    "Do you have any specific requirements or preferences?";
    "What is your budget range?";
    "Is there anything else the business should know?" ].

(** Lines 158-165: the loop over [response.split('\n')]. *)
Fixpoint parse_lines (lines : list string) (questions : list string)
  : list string :=
  match lines with
  | [] => questions
  | line :: rest =>
      if Re.matches Re.numbered_pattern (Py.strip line)
      then
        let question := Re.sub Re.number_prefix_pattern "" (Py.strip line) in
        if negb (Py.is_empty question)
        then parse_lines rest (questions ++ [question])
        else parse_lines rest questions
      else parse_lines rest questions
  end.

Definition parse_questions (response : string) : list string :=
  parse_lines (Py.split Py.nl response) [].

Definition get_dynamic_questions (e : env) (business_type : string)
  : M (list string) :=
  try_except
    (do response <- run_with_text e (questions_prompt business_type);
     let questions := parse_questions response in
     ret (match questions with [] => fallback_questions | _ => questions end))
    (fun _ => ret fallback_questions).

(** *** [draft_dynamic_message] *)

Definition draft_prompt (business_type : string) (answers : Py.dict) : string :=
  "Draft a professional message to a " +:+ business_type +:+ " business requesting a quote or service information.
    Use the following information to create the message:

    Business Type: " +:+ business_type +:+ "
    Customer Responses:
    " +:+ json_dumps answers +:+ "

    The message should:
    1. Be professional and courteous
    2. Include all relevant information from the customer's responses, but NEVER disclose the user's budget upfront.
    3. Be written by a master negotiator aiming to get the best possible offer.
    4. Request pricing and availability information clearly.
    5. End with a strong call to action.
    6. Always conclude with:

Best,
[Your Name]
[Your Contact Information]

    Format the message as a plain text email without any markdown or special formatting.".

Definition draft_fallback (business_type : string) (answers : Py.dict) : string :=
  "Hi! I found your business on Yelp and I'm interested in your services.

I'm looking for " +:+ business_type +:+ " services and would like to request a quote. Here are my requirements:

" +:+ Py.join Py.nl ((fun qa => "- " +:+ qa.1 +:+ ": " +:+ qa.2) <$> answers) +:+ "

Could you please provide information about your services, pricing, and availability? Thank you!

Best,
[Your Name]
[Your Contact Information]".

Definition draft_dynamic_message (e : env) (business_type : string)
           (answers : Py.dict) : M string :=
  try_except
    (do message <- run_with_text e (draft_prompt business_type answers);
     ret (Py.strip message))
    (fun _ => ret (draft_fallback business_type answers)).

(** *** [get] *)

Definition type_prompt : string :=
  Py.nl +:+ "üîç What type of business or service are you looking for? (e.g., pizza, dentist, plumber, movers, tax services, etc.)".

Definition zip_prompt : string :=
  "üìç Please enter your 5-digit zip code:".

Definition generating_message : string :=
  "üîÑ Generating relevant questions based on your request..."
  +:+ Py.nl
  +:+ "üìù I'll ask you a few questions to gather more context.".

Definition too_long_message : string :=
  "‚ùå You took too long to respond. Please try again with !get".

Definition question_prompt (total i : nat) (question : string) : string :=
  "üîπ Question " +:+ index_str i +:+ "/" +:+ index_str total
  +:+ ": " +:+ question.

(** Lines 252-259: one question after the other; [None] is the [return]
    of the timeout handler. *)
Fixpoint ask_questions (e : env) (total i : nat) (questions : list string)
         (answers : Py.dict) : M (option Py.dict) :=
  match questions with
  | [] => ret (Some answers)
  | question :: rest =>
      send e (question_prompt total i question) ;;
      do step <-
        try_except_timeout
          (do answer <- wait_for e 60;
           ret (Some (Py.dict_set answers question (Py.strip answer))))
          (send e too_long_message ;;
           ret None);
      match step with
      | Some answers => ask_questions e total (S i) rest answers
      | None => ret None
      end
  end.

Definition collected_message : string :=
  "‚úÖ Information collected successfully! You can now use !list to see Yelp results.".

(** Lines 227-263: the body of the [try]. *)
Definition get_dialog (e : env) (author : Z) : M unit :=
  send e type_prompt ;;
  do business_response <- wait_for e 30;
  let business_type := Py.strip business_response in
  if Py.len business_type <? 2
  then send e "‚ùå Please provide a valid business type (at least 2 characters)."
  else
    (send e zip_prompt ;;
     do zip_response <- wait_for e 30;
     let zipcode := Py.strip zip_response in
     if negb (Re.matches Re.zip_pattern zipcode)
     then send e "‚ùå Please provide a valid 5-digit zip code."
     else
       (send e generating_message ;;
        do questions <- get_dynamic_questions e business_type;
        do collected <- ask_questions e (length questions) 1 questions [];
        match collected with
        | None => ret tt
        | Some answers =>
            send e collected_message ;;
            modify (fun st =>
                      set_user_context
                        (<[author := Session business_type zipcode answers]>
                           (user_context st)) st)
        end)).

Definition get (e : env) (author : Z) : M unit :=
  modify (set_interactive true) ;;
  try_finally
    (try_except
       (get_dialog e author)
       (fun _ => send e "Sorry, I encountered an error while processing your request."))
    (modify (set_interactive false)).

(** *** [message_business] *)

Definition listing_marker : string := "üîç Top results for".
Definition link_marker : string := "    üîó ".

Definition search_first : string :=
  "‚ùå Please run a !search command first to get business results.".

Definition default_message : string :=
  "Hi! I found your business on Yelp and I'm interested in getting more information about your services. Could you please provide details about pricing and availability? Thank you!".

(** Lines 313-316: the first of the given lines that holds the link. *)
Definition find_yelp_url (lines : list string) : option string :=
  (fun l => Py.strip (Py.replace link_marker "" l))
    <$> List.find (Py.contains link_marker) lines.

(** Lines 306-317: the first line that starts with the bracketed number,
    and the link looked for in it and the six lines after it. *)
Fixpoint find_business (business_number : string) (lines : list string)
  : option (string * option string) :=
  match lines with
  | [] => None
  | line :: rest =>
      if Py.startswith ("[" +:+ business_number +:+ "]") line
      then Some (Py.replace ("[" +:+ business_number +:+ "] ") "" line,
                 find_yelp_url (take 7 lines))
      else find_business business_number rest
  end.

Definition message_instructions (name message_url message : string) : string :=
  Py.join Py.nl
    [ "üì® To message " +:+ name +:+ " through Yelp:";
      "";
      "1. Click this link to open Yelp's messaging page:";
      message_url;
      "";
      "2. Copy and paste this message (or write your own):";
      "```";
      message;
      "```";
      "";
      "Note: You'll need to be logged into your Yelp account to send the message." ].

Definition message_business (e : env) (business_number : string)
           (message : option string) : M unit :=
  try_except
    (if negb (truthy (yelp_api_key e))
     then send e "‚ùå Yelp API key not configured. Please set the YELP_API_KEY environment variable."
     else
       do msgs <- history e 20;
       match List.find (fun m => (msg_author m =? bot_user e)%Z
                                 && Py.contains listing_marker (msg_content m))
                       msgs with
       | None =>
           send e search_first
       | Some search_results =>
           let lines := Py.split Py.nl (msg_content search_results) in
           match find_business business_number lines with
           | Some (name, Some (String c u)) =>
               let yelp_url := String c u in
               let message :=
                 if truthy message then default "" message else default_message in
               let business_id :=
                 default "" (head (Py.split "?"
                   (default "" (last (Py.split "biz/" yelp_url))))) in
               let message_url :=
                 "https://www.yelp.com/message_the_business/" +:+ business_id in
               send_long_message e (message_instructions name message_url message)
           | _ =>
               send e ("‚ùå Could not find Yelp page for business number "
                       +:+ business_number +:+ ".")
           end
       end)
    (fun _ => send e "Sorry, I encountered an error while trying to set up the Yelp message.").

(** *** [list_businesses] and [draft] *)

Definition get_first : string :=
  "‚ùå Please run !get first to provide your business type and zip code.".

Definition website_line : Re.pattern :=                  (* r'\s+üåê .*' *)
  Re.Rep Py.is_space 1 None :: Re.lit "üåê " ++ [Re.Rep Re.dot 0 None].

Definition list_businesses (e : env) (author : Z) : M unit :=
  do ctx <- read user_context;
  match ctx !! author with
  | None => send e get_first
  | Some s =>
      send e ("üîç Searching for **" +:+ business_type s
              +:+ "** in zip code **" +:+ zipcode s +:+ "**...") ;;
      do found <- yelp_search e (business_type s) (zipcode s);
      delete e ;;
      let response := Re.sub website_line "" found.1 in
      send_each e (chunks response)
  end.

(** Lines 423-433: one drafted message for each business. *)
Fixpoint draft_each (e : env) (s : session) (businesses : list business)
  : M unit :=
  match businesses with
  | [] => ret tt
  | b :: rest =>
      do personalized_message <-
        draft_dynamic_message e (business_type s)
          (Py.dict_set (answers s) "Business Name" (biz_name b));
      let yelp_url := default "N/A" (biz_url b) in
      send_long_message e
        ("üìù **Outreach for " +:+ biz_name b +:+ "**" +:+ Py.nl +:+ Py.nl
         +:+ "‚¨áÔ∏è" +:+ Py.nl +:+ Py.nl
         +:+ personalized_message +:+ Py.nl +:+ Py.nl
         +:+ "üîó [Click here to open Yelp page](" +:+ yelp_url +:+ ")") ;;
      draft_each e s rest
  end.

Definition draft (e : env) (author : Z) : M unit :=
  do ctx <- read user_context;
  match ctx !! author with
  | None => send e get_first
  | Some s =>
      send e "üìù Drafting personalized outreach messages for each business..." ;;
      do found <- yelp_search e (business_type s) (zipcode s);
      draft_each e s found.2
  end.

(** *** [ping], [ask], [send_message], [welcome] *)

Definition ping (e : env) (arg : option string) : M unit :=
  match arg with
  | None => send e "Pong!"
  | Some arg => send e ("Pong! Your argument was " +:+ arg)
  end.

Definition ask (e : env) (arg : option string) : M unit :=
  match arg with
  | None =>
      send e "Please provide a question to ask the agent. Usage: !ask What is the capital of France?"
  | Some arg =>
      try_except
        (do response <- run_with_text e arg;
         send e response)
        (fun _ => send e "Sorry, I encountered an error while processing your question.")
  end.

Definition send_message (e : env) (business_number : string) : M unit :=
  message_business e business_number None.

Definition welcome_message : string :=
  "‚ú®‚ú®‚ú® **Welcome to Yelp Outreach Assistant!** ‚ú®‚ú®‚ú®"
  +:+ Py.nl
  +:+ Py.nl
  +:+ "I'm here to help you effortlessly find local businesses and automate your outreach process. Whether you're:"
  +:+ Py.nl
  +:+ Py.nl
  +:+ "- üì¶ **Comparing quotes across movers** for your upcoming relocation"
  +:+ Py.nl
  +:+ "- üìä **Searching for a new tax representative** to handle your finances"
  +:+ Py.nl
  +:+ "- üè¢ **Looking for a real estate broker** to find your perfect office space"
  +:+ Py.nl
  +:+ Py.nl
  +:+ "I've got you covered!"
  +:+ Py.nl
  +:+ Py.nl
  +:+ "Here's how you can get started:"
  +:+ Py.nl
  +:+ "1. Use the `!initiate` command to begin."
  +:+ Py.nl
  +:+ "2. Provide your business type and zip code."
  +:+ Py.nl
  +:+ "3. Answer a few quick questions to help me understand your needs."
  +:+ Py.nl
  +:+ "4. I'll find the top businesses on Yelp tailored to your requirements."
  +:+ Py.nl
  +:+ "5. You'll receive personalized outreach messages ready to send!"
  +:+ Py.nl
  +:+ Py.nl
  +:+ "Ready to simplify your search and outreach? Just type `!initiate` to begin! üöÄ".

Definition welcome (e : env) : M unit := send_long_message e welcome_message.

(** *** [initiate] *)

Definition initiate_banner : string :=
  "‚ú®‚ú®‚ú® **__Welcome to Yelp Outreach Assistant!__** ‚ú®‚ú®‚ú®"
  +:+ Py.nl
  +:+ "Let's find the best businesses and craft personalized messages for you!"
  +:+ Py.nl
  +:+ Py.nl
  +:+ "Here's how it works:"
  +:+ Py.nl
  +:+ "1. Provide your business type and zip code."
  +:+ Py.nl
  +:+ "2. Answer a few quick questions to help us understand your needs."
  +:+ Py.nl
  +:+ "3. We'll find the top businesses on Yelp for you."
  +:+ Py.nl
  +:+ "4. You'll receive personalized messages ready to send!"
  +:+ Py.nl
  +:+ Py.nl
  +:+ "‚¨áÔ∏è".

Definition drafting_links_message : string :=
  "üìù Drafting personalized outreach messages and providing Yelp business links...".

(** Lines 396-405; [business['url']] raises a KeyError when the summary
    has no url. *)
Fixpoint initiate_each (e : env) (s : session) (i : nat)
         (businesses : list business) : M unit :=
  match businesses with
  | [] => ret tt
  | b :: rest =>
      do personalized_message <-
        draft_dynamic_message e (business_type s)
          (Py.dict_set (answers s) "Business Name" (biz_name b));
      do url <- match biz_url b with
                | Some u => ret u
                | None => raise (Error "'url'")
                end;
      send_long_message e
        ("[" +:+ index_str i +:+ "] " +:+ biz_name b +:+ Py.nl
         +:+ personalized_message +:+ Py.nl +:+ Py.nl
         +:+ "üîó [Click here to open Yelp page](" +:+ url +:+ ")" +:+ Py.nl
         +:+ "üëâ Click 'Message the Business' on Yelp to send your message."
         +:+ Py.nl) ;;
      initiate_each e s (S i) rest
  end.

Definition initiate (e : env) (author : Z) : M unit :=
  send e initiate_banner ;;
  get e author ;;
  list_businesses e author ;;
  do ctx <- read user_context;
  match ctx !! author with
  | None => send e get_first
  | Some s =>
      send e drafting_links_message ;;
      do found <- yelp_search e (business_type s) (zipcode s);
      initiate_each e s 1 found.2
  end.

(** *** [on_message] *)

Definition PREFIX : string := "!".

(** Lines 71-91: what the handler does once the commands are processed. *)
Definition forward_ambient (e : env) (channel_id : Z) (m : message) : M unit :=
  do active <- read interactive_session_active;
  if msg_author_bot m || Py.startswith PREFIX (msg_content m) || active
  then ret tt
  else
    do before <- history e 1;
    let in_dialog :=
      match before with
      | last_msg :: _ =>
          (msg_author last_msg =? bot_user e)%Z
          && (Py.contains "What type of business or service are you looking for?"
                          (msg_content last_msg)
              || Py.contains "Please enter your 5-digit zip code:"
                             (msg_content last_msg))
      | [] => false
      end in
    if in_dialog then ret tt
    else
      do response <- run e channel_id m;
      send_long_message e response.

(** The call of a command's function for [ctx.author = author]. *)
Definition exec (e : env) (author : Z) (c : command) : M unit :=
  match c with
  | CmdPing arg => ping e arg
  | CmdAsk arg => ask e arg
  | CmdSearch t z => search e t z
  | CmdGet => get e author
  | CmdMessage n m => message_business e n m
  | CmdList => list_businesses e author
  | CmdInitiate => initiate e author
  | CmdDraft => draft e author
  | CmdSendMessage n => send_message e n
  | CmdWelcome => welcome e
  end.

(** [bot.process_commands(message)], line 69.  The dispatcher is the chat
    library's: it leaves the messages of bots alone, looks for a command
    only in a message that starts with the prefix, calls the function of
    the command it finds with the author of the message as [ctx.author],
    and hands an [Exception] that function raises to its error handler
    instead of raising it. *)
Definition process_commands (e : env) (m : message) : M unit :=
  if msg_author_bot m || negb (Py.startswith PREFIX (msg_content m))
  then ret tt
  else
    match on_dispatch e m with
    | Some c => try_except (exec e (msg_author m) c) (fun _ => ret tt)
    | None => ret tt
    end.

Definition on_message (e : env) (channel_id : Z) (m : message) : M unit :=
  process_commands e m ;;
  forward_ambient e channel_id m.

(** What the process reacts to: a command invoked for a user, or a
    message that arrives in a channel. *)
Inductive event : Type :=
| Invoke (author : Z) (c : command)
| Ambient (channel_id : Z) (m : message).

Definition handle (e : env) (ev : event) : M unit :=
  match ev with
  | Invoke author c => exec e author c
  | Ambient channel_id m => on_message e channel_id m
  end.

(** ** Environments and inputs used in the examples *)

(** The dispatcher on the messages that are the name of a command and
    nothing more, for the commands that can be called without
    arguments. *)
Definition plain_dispatch (m : message) : option command :=
  let text := msg_content m in
  if String.eqb text "!ping" then Some (CmdPing None)
  else if String.eqb text "!ask" then Some (CmdAsk None)
  else if String.eqb text "!get" then Some CmdGet
  else if String.eqb text "!list" then Some CmdList
  else if String.eqb text "!draft" then Some CmdDraft
  else if String.eqb text "!initiate" then Some CmdInitiate
  else if String.eqb text "!welcome" then Some CmdWelcome
  else None.

(** Every send and delete succeeds, nobody answers, both APIs are down
    and the channel is empty. *)
Definition quiet_env : env :=
  {| on_send := fun _ _ => Ok tt;
     on_delete := fun _ => Ok tt;
     on_wait_for := fun _ => Raise TimeoutError;
     channel_log := fun _ => Ok [];
     on_complete := fun _ _ => Raise (Error "service unavailable");
     on_search_query := fun _ _ _ => Raise (Error "service unavailable");
     on_business_query := fun _ _ => Raise (Error "service unavailable");
     yelp_api_key := Some "key";
     weekday := 0;
     bot_user := 0;
     on_dispatch := plain_dispatch |}.

Definition with_channel_log (log : list message) (e : env) : env :=
  {| on_send := on_send e;
     on_delete := on_delete e;
     on_wait_for := on_wait_for e;
     channel_log := fun _ => Ok log;
     on_complete := on_complete e;
     on_search_query := on_search_query e;
     on_business_query := on_business_query e;
     yelp_api_key := yelp_api_key e;
     weekday := weekday e;
     bot_user := bot_user e;
     on_dispatch := on_dispatch e |}.

Definition older_message : message := Message 7 false "first".
Definition newer_message : message := Message 7 false "second".

(** ** The specification's wording of two text checks

    These definitions follow the words of the specification, not the
    code; the properties below compare them with the code. *)

(** "a string of exactly five digits" *)
Definition five_digits (s : string) : bool :=
  (String.length s =? 5) && forallb Py.is_digit (list_ascii_of_string s).

(** What follows a "digits then period" prefix, if the text has one. *)
Fixpoint drop_digits (s : string) : string :=
  match s with
  | EmptyString => EmptyString
  | String c s' => if Py.is_digit c then drop_digits s' else s
  end.

Definition numbered_rest (t : string) : option string :=
  match t with
  | String c _ =>
      if Py.is_digit c
      then match drop_digits t with
           | String d rest => if Ascii.eqb "." d then Some rest else None
           | EmptyString => None
           end
      else None
  | EmptyString => None
  end.

(** A line is kept "with its numeric prefix and surrounding whitespace
    stripped", unless it does "not start (after stripping) with
    digits-and-period" or "become[s] empty after stripping". *)
Definition spec_question (line : string) : option string :=
  match numbered_rest (Py.strip line) with
  | Some rest =>
      let q := Py.strip rest in
      if Py.is_empty q then None else Some q
  | None => None
  end.

Definition spec_parse (response : string) : list string :=
  omap spec_question (Py.split Py.nl response).

(** ** Notions used to state the properties *)

(** [st'] differs from [st] by calls only, each of which satisfies [P]. *)
Definition adds_calls (P : call -> Prop) (st st' : state) : Prop :=
  interactive_session_active st' = interactive_session_active st
  /\ user_context st' = user_context st
  /\ channel_history st' = channel_history st
  /\ exists calls, trace st' = trace st ++ calls /\ Forall P calls.

(** Calls to the chat platform or no calls: no API call among them. *)
Definition platform_only : state -> state -> Prop :=
  adds_calls (fun c => is_api_call c = false).

(** Every run of [m] is related to its start by [R]. *)
Definition frame {A} (R : state -> state -> Prop) (m : M A) : Prop :=
  forall st, R st (m st).2.

Definition record_calls (cs : list call) (st : state) : state :=
  {| interactive_session_active := interactive_session_active st;
     user_context := user_context st;
     channel_history := channel_history st;
     trace := trace st ++ cs |}.

(** The block the listing holds for the business at rank [i], given the
    answer its detail lookup received as the [n]-th call. *)
Definition detail_block (e : env) (n i : nat) (b : business) : string :=
  match on_business_query e n (biz_id b) with
  | Ok d => default (render_fallback i b) (render_detailed (weekday e) i b d)
  | Raise _ => render_fallback i b
  end.


(** A channel in which the bot has posted a text that carries the listing
    marker, a numbered line and a link line. *)
Definition posted_listing : message :=
  Message 0 true
    (listing_marker +:+ " 'pizza' in 94107:" +:+ Py.nl
     +:+ Py.nl +:+ "[1] Joe's Pizza"
     +:+ Py.nl +:+ link_marker +:+ "https://www.yelp.com/biz/joes-pizza?ref=search").

Definition listing_env : env := with_channel_log [posted_listing] quiet_env.

(** Events handled one after the other, each in its own environment. *)
Fixpoint run_script (script : list (env * event)) (st : state) : state :=
  match script with
  | [] => st
  | (e, ev) :: rest => run_script rest (handle e ev st).2
  end.

(** A clear flag stays clear. *)
Definition keeps_flag_clear (st st' : state) : Prop :=
  interactive_session_active st = false ->
  interactive_session_active st' = false.

(** Calls of any kind, and nothing else. *)
Definition calls_only : state -> state -> Prop := adds_calls (fun _ => True).

(** Two businesses; the detail lookup of the first one fails, the second
    one is answered. *)
Definition first_business : business :=
  Business "joes-pizza" "Joe's Pizza" None ["1 Main St"; "San Francisco"]
           "4.5" 120 (Some "https://www.yelp.com/biz/joes-pizza").

Definition second_business : business :=
  Business "slice-house" "Slice House" (Some "(415) 555-0100") ["2 Oak St"]
           "4.0" 85 None.

Definition second_details : details :=
  Details (Some "https://slicehouse.example")
          (Some [HoursEntry (Some true) (Some [OpenSlot 0 "1100" "2200"])])
          (Some ["pickup"; "restaurant_reservation"])
          (Some "$$")
          (Some ["Pizza"; "Italian"; "Bars"; "Salad"]).

Definition search_env : env :=
  {| on_send := fun _ _ => Ok tt;
     on_delete := fun _ => Ok tt;
     on_wait_for := fun _ => Raise TimeoutError;
     channel_log := fun _ => Ok [];
     on_complete := fun _ _ => Raise (Error "service unavailable");
     on_search_query := fun _ _ _ => Ok (Some [first_business; second_business]);
     on_business_query := fun _ id =>
       if String.eqb id "slice-house" then Ok second_details
       else Raise (Error "HTTP 500");
     yelp_api_key := Some "key";
     weekday := 0;
     bot_user := 0;
     on_dispatch := plain_dispatch |}.

(** ** A dialog of [get] that runs to its end *)

(** The calls of the question loop when every question is answered. *)
Fixpoint question_calls (total i : nat) (questions : list string) : list call :=
  match questions with
  | [] => []
  | question :: rest =>
      Send (question_prompt total i question) :: WaitFor 60
        :: question_calls total (S i) rest
  end.

(** All the calls of a dialog that reaches the confirmation. *)
Definition dialog_calls (business_type : string) (questions : list string)
  : list call :=
  [ Send type_prompt; WaitFor 30; Send zip_prompt; WaitFor 30;
    Send generating_message;
    Complete [system_turn; Turn "user" (questions_prompt business_type)] ]
  ++ question_calls (length questions) 1 questions
  ++ [Send collected_message].

(** The environment let the call through: the message was sent, the
    awaited message arrived before the timeout. *)
Definition answered (e : env) (n : nat) (c : call) : Prop :=
  match c with
  | Send text => on_send e n text = Ok tt
  | WaitFor _ => exists reply, on_wait_for e n = Ok reply
  | _ => True
  end.

Definition answered_calls (e : env) (n0 : nat) (calls : list call) : Prop :=
  forall k c, calls !! k = Some c -> answered e (n0 + k) c.

(** [calls], made from call number [n0] on, are a completed dialog that
    collected the session [s]: nothing failed or timed out, the business
    type and the zipcode are the two replies, stripped and valid, and
    every follow-up question has an answer. *)
Definition completed_dialog (e : env) (n0 : nat) (calls : list call)
           (s : session) : Prop :=
  exists questions type_reply zip_reply,
    calls = dialog_calls (business_type s) questions
    /\ answered_calls e n0 calls
    /\ on_wait_for e (n0 + 1) = Ok type_reply
    /\ business_type s = Py.strip type_reply
    /\ 2 <= Py.len (business_type s)
    /\ on_wait_for e (n0 + 3) = Ok zip_reply
    /\ zipcode s = Py.strip zip_reply
    /\ five_digits (zipcode s) = true
    /\ forall q, q ∈ questions -> exists a, (q, a) ∈ answers s.

(** A user who answers everything: "dentist", " 94107 " and the same
    text to each of the two questions the completion service proposes. *)
Definition dentist_env : env :=
  {| on_send := fun _ _ => Ok tt;
     on_delete := fun _ => Ok tt;
     on_wait_for := fun n =>
       if n =? 1 then Ok "dentist"
       else if n =? 3 then Ok " 94107 "
       else Ok " as soon as possible";
     channel_log := fun _ => Ok [];
     on_complete := fun _ _ =>
       Ok ("Here are some questions:" +:+ Py.nl
           +:+ "1. When do you need the appointment?" +:+ Py.nl
           +:+ "2. Is it an emergency?");
     on_search_query := fun _ _ _ => Raise (Error "service unavailable");
     on_business_query := fun _ _ => Raise (Error "service unavailable");
     yelp_api_key := Some "key";
     weekday := 0;
     bot_user := 0;
     on_dispatch := plain_dispatch |}.

(** The same user, who does not answer the second question. *)
Definition impatient_env : env :=
  {| on_send := on_send dentist_env;
     on_delete := on_delete dentist_env;
     on_wait_for := fun n =>
       if n =? 9 then Raise TimeoutError else on_wait_for dentist_env n;
     channel_log := channel_log dentist_env;
     on_complete := on_complete dentist_env;
     on_search_query := on_search_query dentist_env;
     on_business_query := on_business_query dentist_env;
     yelp_api_key := yelp_api_key dentist_env;
     weekday := weekday dentist_env;
     bot_user := bot_user dentist_env;
     on_dispatch := on_dispatch dentist_env |}.

Definition earlier_session : session :=
  Session "plumber" "10001" [("What is leaking?", "the kitchen tap")].

Definition state_with_session : state :=
  set_user_context {[ 7%Z := earlier_session ]} initial_state.

(** ** Notions used to state further properties *)

(** A failure, if there is one, is an [Exception]. *)
Definition fails_with_exception {A} (o : outcome A) : Prop :=
  match o with Ok _ => True | Raise ex => is_exception ex = true end.

(** No call is interrupted by a [BaseException] outside [Exception]
    (KeyboardInterrupt, SystemExit, CancelledError): whatever fails, fails
    with an [Exception]. *)
Definition ordinary_failures (e : env) : Prop :=
  (forall n text, fails_with_exception (on_send e n text))
  /\ (forall n, fails_with_exception (on_delete e n))
  /\ (forall n, fails_with_exception (on_wait_for e n))
  /\ (forall n, fails_with_exception (channel_log e n))
  /\ (forall n messages, fails_with_exception (on_complete e n messages))
  /\ (forall n term location,
        fails_with_exception (on_search_query e n term location))
  /\ (forall n id, fails_with_exception (on_business_query e n id)).

(** The chat platform delivers every message the bot sends. *)
Definition sends_succeed (e : env) : Prop :=
  forall n text, on_send e n text = Ok tt.

(** [m] raises nothing but [Exception]s. *)
Definition raises_exceptions_only {A} (m : M A) : Prop :=
  forall st, fails_with_exception (m st).1.

(** [m] always returns. *)
Definition never_raises {A} (m : M A) : Prop :=
  forall st, exists a, (m st).1 = Ok a.


Definition no_results_message (term zipcode : string) : string :=
  "No results found for '" +:+ term +:+ "' in zipcode " +:+ zipcode +:+ ".".

Definition search_status (term zipcode : string) : string :=
  "üîç Searching for '" +:+ term +:+ "' in " +:+ zipcode +:+ "...".

Definition list_status (s : session) : string :=
  "üîç Searching for **" +:+ business_type s +:+ "** in zip code **" +:+ zipcode s +:+ "**...".

(** An environment in which deleting a message is refused. *)
Definition no_delete_env : env :=
  {| on_send := on_send search_env;
     on_delete := fun _ => Raise (Error "Forbidden");
     on_wait_for := on_wait_for search_env;
     channel_log := channel_log search_env;
     on_complete := on_complete search_env;
     on_search_query := on_search_query search_env;
     on_business_query := on_business_query search_env;
     yelp_api_key := yelp_api_key search_env;
     weekday := weekday search_env;
     bot_user := bot_user search_env;
     on_dispatch := on_dispatch search_env |}.

(** An environment whose search finds nothing. *)
Definition empty_search_env : env :=
  {| on_send := on_send quiet_env;
     on_delete := on_delete quiet_env;
     on_wait_for := on_wait_for quiet_env;
     channel_log := channel_log quiet_env;
     on_complete := on_complete quiet_env;
     on_search_query := fun _ _ _ => Ok (Some []);
     on_business_query := on_business_query quiet_env;
     yelp_api_key := yelp_api_key quiet_env;
     weekday := weekday quiet_env;
     bot_user := bot_user quiet_env;
     on_dispatch := on_dispatch quiet_env |}.

(** A detail record whose opening hours for Monday have no start time,
    and an environment that answers every detail lookup with it. *)
Definition malformed_details : details :=
  Details None
          (Some [HoursEntry (Some true) (Some [OpenSlot 0 "" "2200"])])
          None None None.

Definition malformed_env : env :=
  {| on_send := on_send quiet_env;
     on_delete := on_delete quiet_env;
     on_wait_for := on_wait_for quiet_env;
     channel_log := channel_log quiet_env;
     on_complete := on_complete quiet_env;
     on_search_query := on_search_query quiet_env;
     on_business_query := fun _ _ => Ok malformed_details;
     yelp_api_key := yelp_api_key quiet_env;
     weekday := 0;
     bot_user := bot_user quiet_env;
     on_dispatch := on_dispatch quiet_env |}.

(** The turn [_format_messages] makes of a message. *)
Definition turn_of (m : message) : turn :=
  Turn (if msg_author_bot m then "assistant" else "user") (msg_content m).

(** Nothing changed but calls made and the buffer of [channel_id]. *)
Definition other_channels_kept (channel_id : Z) (st st' : state) : Prop :=
  interactive_session_active st' = interactive_session_active st
  /\ user_context st' = user_context st
  /\ forall other, other <> channel_id ->
       channel_history st' !! other = channel_history st !! other.

Definition current_message : message := Message 7 false "hello".

(** In the channel the bot has not spoken. *)
Definition bot_silent (e : env) (log : list message) : Prop :=
  Forall (fun m => msg_author m <> bot_user e) log.

(** What a stored session always satisfies. *)
Definition valid_session (s : session) : Prop :=
  2 <= Py.len (business_type s) /\ five_digits (zipcode s) = true.

Definition sessions_valid (st : state) : Prop :=
  forall author s, user_context st !! author = Some s -> valid_session s.

Definition keeps_sessions_valid (st st' : state) : Prop :=
  sessions_valid st -> sessions_valid st'.

(** The calls of a dialog: messages sent, replies awaited, completions. *)
Definition dialog_call (c : call) : Prop :=
  match c with
  | Send _ | WaitFor _ | Complete _ => True
  | _ => False
  end.

(** Nothing changed but the flag, the session of [author] and the calls
    made, all of them calls of a dialog. *)
Definition one_session_touched (author : Z) (st st' : state) : Prop :=
  channel_history st' = channel_history st
  /\ (forall other, other <> author ->
        user_context st' !! other = user_context st !! other)
  /\ exists calls, trace st' = trace st ++ calls /\ Forall dialog_call calls.

Definition is_completion (c : call) : bool :=
  match c with Complete _ => true | _ => false end.

(** The request [draft_dynamic_message] makes for a business. *)
Definition draft_request (s : session) (b : business) : list turn :=
  [ system_turn;
    Turn "user" (draft_prompt (business_type s)
                   (Py.dict_set (answers s) "Business Name" (biz_name b))) ].

Definition no_link_business : business :=
  Business "slice-house" "Slice House" None ["2 Oak St"] "4.0" 85 None.

(** A text of 1901 characters, and an environment in which the second
    call, if it sends a message, is refused. *)
Definition long_text : string :=
  string_of_list_ascii (replicate 1901 "a"%char).

Definition second_send_refused : env :=
  {| on_send := fun n _ => if n =? 1 then Raise (Error "Forbidden") else Ok tt;
     on_delete := on_delete quiet_env;
     on_wait_for := on_wait_for quiet_env;
     channel_log := channel_log quiet_env;
     on_complete := on_complete quiet_env;
     on_search_query := on_search_query quiet_env;
     on_business_query := on_business_query quiet_env;
     yelp_api_key := yelp_api_key quiet_env;
     weekday := weekday quiet_env;
     bot_user := bot_user quiet_env;
     on_dispatch := on_dispatch quiet_env |}.

(** A channel in which another user has written, and a completion
    service that answers. *)
Definition answering_env : env :=
  {| on_send := on_send quiet_env;
     on_delete := on_delete quiet_env;
     on_wait_for := on_wait_for quiet_env;
     channel_log := fun _ => Ok [older_message];
     on_complete := fun _ _ => Ok "Hi there";
     on_search_query := on_search_query quiet_env;
     on_business_query := on_business_query quiet_env;
     yelp_api_key := yelp_api_key quiet_env;
     weekday := weekday quiet_env;
     bot_user := bot_user quiet_env;
     on_dispatch := on_dispatch quiet_env |}.

Definition seeded_state : state :=
  set_channel_history {[ 1%Z := [Msg older_message] ]} initial_state.

(* ===================================================================== *)
(** * Part II.  Properties                                                *)
(* ===================================================================== *)

(** ** Strings as lists of characters *)

Section StringFacts.

Implicit Types (s t : string) (c : ascii).

Lemma chars_app s t :
  list_ascii_of_string (s +:+ t)
  = list_ascii_of_string s ++ list_ascii_of_string t.
Proof. induction s as [|c s IH]; simpl; [done | by rewrite IH]. Qed.

Lemma chars_length s : length (list_ascii_of_string s) = String.length s.
Proof. induction s as [|c s IH]; simpl; [done | by rewrite IH]. Qed.

Lemma chars_inj s t :
  list_ascii_of_string s = list_ascii_of_string t -> s = t.
Proof.
  intros H. rewrite <- (string_of_list_ascii_of_string s), H.
  apply string_of_list_ascii_of_string.
Qed.

Lemma chars_substring n m s :
  list_ascii_of_string (String.substring n m s)
  = take m (drop n (list_ascii_of_string s)).
Proof.
  revert n m.
  induction s as [|c s IH]; intros [|n] [|m]; simpl; rewrite ?IH; done.
Qed.

Lemma chars_concat (l : list string) :
  list_ascii_of_string (String.concat "" l)
  = concat (list_ascii_of_string <$> l).
Proof.
  induction l as [|s l IH]; [done|].
  destruct l as [|t l].
  - simpl. by rewrite app_nil_r.
  - change (String.concat "" (s :: t :: l))
      with (s +:+ String.concat "" (t :: l)).
    by rewrite chars_app, IH.
Qed.

Lemma append_cons c s t : String c s +:+ t = String c (s +:+ t).
Proof. reflexivity. Qed.

Lemma append_assoc s t u : (s +:+ t) +:+ u = s +:+ (t +:+ u).
Proof.
  induction s as [|c s IH]; [done | by rewrite !append_cons, IH].
Qed.

End StringFacts.

(** [needle in hay] when [hay] is built around [needle]. *)
Lemma prefix_append p s : String.prefix p (p +:+ s) = true.
Proof.
  induction p as [|c p IH]; [by destruct s|].
  rewrite append_cons. simpl. destruct (ascii_dec c c); [done | congruence].
Qed.

Lemma contains_prefix needle hay :
  String.prefix needle hay = true -> Py.contains needle hay = true.
Proof. intros H. destruct hay; cbn [Py.contains]; by rewrite H. Qed.

Lemma contains_append needle pre post :
  Py.contains needle (pre +:+ needle +:+ post) = true.
Proof.
  induction pre as [|c pre IH].
  - change (Py.contains needle (needle +:+ post) = true).
    apply contains_prefix, prefix_append.
  - rewrite append_cons. cbn [Py.contains]. rewrite IH. apply orb_true_r.
Qed.




(** ** Chunking of long output *)

Section Chunking.

Variable step : nat.
Hypothesis step_pos : 0 < step.

(** The starts [range] yields are the multiples of [step] below [stop]. *)
Lemma range_from_lookup fuel i stop k j :
  Py.range_from fuel i stop step !! k = Some j -> j = i + k * step /\ j < stop.
Proof.
  revert i k. induction fuel as [|fuel IH]; intros i k; simpl; [done|].
  destruct (Nat.ltb_spec i stop) as [Hlt|Hge]; [|done].
  destruct k as [|k]; simpl.
  - intros [= <-]. lia.
  - intros H. apply IH in H. lia.
Qed.

Lemma range_from_length fuel i stop :
  stop - i <= fuel ->
  length (Py.range_from fuel i stop step) = (stop - i + (step - 1)) / step.
Proof.
  revert i. induction fuel as [|fuel IH]; intros i Hfuel; simpl.
  - replace (stop - i) with 0 by lia. simpl.
    symmetry. apply Nat.div_small. lia.
  - destruct (Nat.ltb_spec i stop) as [Hlt|Hge]; simpl.
    + rewrite IH by lia.
      destruct (Nat.le_gt_cases (i + step) stop) as [Hfull|Hlast].
      * replace (stop - i + (step - 1))
          with (stop - (i + step) + (step - 1) + 1 * step) by lia.
        rewrite Nat.div_add by lia. lia.
      * replace (stop - (i + step)) with 0 by lia.
        rewrite (Nat.div_small (0 + (step - 1))) by lia.
        apply (Nat.div_unique _ _ _ (stop - i - 1)); lia.
    + replace (stop - i) with 0 by lia. simpl.
      symmetry. apply Nat.div_small. lia.
Qed.

(** Gluing the slices taken at the starts gives back the rest of the
    list from the first start on. *)
Lemma range_from_concat {A} (l : list A) fuel i :
  length l - i <= fuel ->
  concat ((fun j => take (j + step - j) (drop j l))
            <$> Py.range_from fuel i (length l) step)
  = drop i l.
Proof.
  revert i. induction fuel as [|fuel IH]; intros i Hfuel; simpl.
  - rewrite drop_ge by lia. done.
  - destruct (Nat.ltb_spec i (length l)) as [Hlt|Hge]; simpl.
    + rewrite IH by lia.
      replace (i + step - i) with step by lia.
      rewrite <- (take_drop step (drop i l)) at 2.
      by rewrite drop_drop.
    + rewrite drop_ge by lia. done.
Qed.

End Chunking.

(** C9.  A text of length L is cut into ceil(L/1900) pieces, written here
    as (L + 1899) / 1900; every piece but the last is 1900 characters long;
    and the pieces, glued in order, are the text. *)
Theorem chunks_partition (content : string) :
  let pieces := chunks content in
  length pieces = (Py.len content + 1899) / 1900
  /\ (forall k piece,
        pieces !! k = Some piece -> S k < length pieces ->
        Py.len piece = 1900)
  /\ String.concat "" pieces = content.
Proof.
  assert (Hpos : 0 < 1900) by lia.
  unfold chunks, Py.range, Py.len. simpl. repeat split.
  - rewrite length_fmap, (range_from_length 1900 Hpos) by lia.
    by rewrite Nat.sub_0_r.
  - intros k piece Hk Hnext. rewrite length_fmap in Hnext.
    rewrite list_lookup_fmap in Hk.
    destruct (Py.range_from _ _ _ _ !! k) as [j|] eqn:Hj; [|done].
    destruct (lookup_lt_is_Some_2 _ _ Hnext) as [j' Hj'].
    apply (range_from_lookup 1900 Hpos) in Hj as [-> _].
    apply (range_from_lookup 1900 Hpos) in Hj' as [-> Hlt].
    simpl in Hk. injection Hk as <-. unfold Py.slice.
    rewrite <- chars_length, chars_substring, length_take, length_drop.
    rewrite chars_length. remember 1900 as n. lia.
  - apply chars_inj. rewrite chars_concat, <- list_fmap_compose.
    transitivity (drop 0 (list_ascii_of_string content)); [|done].
    rewrite <- (range_from_concat 1900 Hpos _ (String.length content - 0) 0)
      by (rewrite chars_length; lia).
    rewrite chars_length. f_equal. apply list_fmap_ext.
    intros _ j _. simpl. unfold Py.slice. by rewrite chars_substring.
Qed.

(** ** The history buffer *)

Section HistoryBuffer.

Context {A : Type}.
Implicit Types (l k : list A) (n : nat).

Lemma last_n_length n l : length (Py.last_n n l) = length l `min` n.
Proof. unfold Py.last_n. rewrite length_drop. lia. Qed.

Lemma last_n_split n l :
  l = take (length l - n) l ++ Py.last_n n l.
Proof. unfold Py.last_n. by rewrite take_drop. Qed.

(** Trimming early does not change what survives later appends. *)
Lemma last_n_app_last_n n l k :
  Py.last_n n (Py.last_n n l ++ k) = Py.last_n n (l ++ k).
Proof.
  unfold Py.last_n. set (a := length l - n).
  assert (Hl : l ++ k = take a l ++ (drop a l ++ k))
    by (by rewrite app_assoc, take_drop).
  rewrite Hl, (drop_app_ge (take a l));
    rewrite ?length_app, ?length_take, ?length_drop.
  - f_equal. lia.
  - lia.
Qed.

End HistoryBuffer.

Lemma append_capped_last_n (h : list entry) (m : entry) :
  append_capped h m = Py.last_n MAX_HISTORY (h ++ [m]).
Proof.
  unfold append_capped, Py.last_n.
  destruct (Nat.ltb_spec MAX_HISTORY (length (h ++ [m]))) as [Hlt|Hge].
  - done.
  - replace (length (h ++ [m]) - MAX_HISTORY) with 0 by lia. done.
Qed.

Lemma foldl_append_capped (h : list entry) (m : entry) (ms : list entry) :
  foldl append_capped h (m :: ms) = Py.last_n MAX_HISTORY (h ++ m :: ms).
Proof.
  revert h m. induction ms as [|m' ms IH]; intros h m.
  - apply append_capped_last_n.
  - change (foldl append_capped h (m :: m' :: ms))
      with (foldl append_capped (append_capped h m) (m' :: ms)).
    rewrite IH, append_capped_last_n, last_n_app_last_n.
    by rewrite <- app_assoc.
Qed.

Lemma append_message_stored (channel_id : Z) (m : message) (st : state) :
  stored_history channel_id (append_message channel_id m st).2
  = append_capped (stored_history channel_id st) (Msg m).
Proof.
  unfold append_message, bind, read, store_history, modify, stored_history.
  simpl. by rewrite lookup_insert_eq.
Qed.

(** After [run], however it ends, the channel's buffer holds at most
    [MAX_HISTORY] entries. *)
Lemma run_history_capped (e : env) (channel_id : Z) (m : message) (st : state) :
  length (stored_history channel_id (run e channel_id m st).2) <= MAX_HISTORY.
Proof.
  unfold run. unfold bind at 1.
  destruct (seed e channel_id st) as [[[]|ex] st1] eqn:Hseed.
  - unfold bind at 1.
    pose proof (append_message_stored channel_id m st1) as Hstored.
    destruct (append_message channel_id m st1) as [[[]|ex] st2]; simpl in Hstored.
    + assert (Hlen : length (stored_history channel_id st2) <= MAX_HISTORY).
      { rewrite Hstored, append_capped_last_n, last_n_length. lia. }
      unfold bind, read, lift, complete, remote.
      destruct (_format_messages (stored_history channel_id st2)); exact Hlen.
    + simpl. rewrite Hstored, append_capped_last_n, last_n_length. lia.
  - simpl. unfold seed, bind, read in Hseed.
    destruct (stored_history channel_id st) as [|x h] eqn:Hh; [|done].
    unfold history, bind, remote in Hseed.
    destruct (channel_log e (length (trace st))); [done|].
    injection Hseed as _ <-. unfold stored_history in *. simpl.
    rewrite Hh. simpl. lia.
Qed.

(** C3.  Whatever the buffer held, after one or more appends it holds the
    last [MAX_HISTORY] = 30 entries of what was there followed by what was
    appended: never more than 30, the entries evicted are the ones at the
    front, and the survivors keep their order.  [append_message] is the
    step [run] takes on the stored buffer, and no [run] leaves more than
    30 entries in it. *)
Theorem history_capped_fifo (h : list entry) (m : entry) (ms : list entry) :
  let h' := foldl append_capped h (m :: ms) in
  length h' <= 30
  /\ h' = Py.last_n 30 (h ++ m :: ms)
  /\ (exists evicted,
        h ++ m :: ms = evicted ++ h'
        /\ length evicted = length (h ++ m :: ms) - 30)
  /\ (forall channel_id msg st,
        stored_history channel_id (append_message channel_id msg st).2
        = append_capped (stored_history channel_id st) (Msg msg))
  /\ (forall e channel_id msg st,
        length (stored_history channel_id (run e channel_id msg st).2) <= 30).
Proof.
  cbv zeta. rewrite foldl_append_capped. change MAX_HISTORY with 30.
  split; [|split; [|split; [|split]]].
  - rewrite last_n_length. lia.
  - done.
  - exists (take (length (h ++ m :: ms) - 30) (h ++ m :: ms)). split.
    + apply last_n_split.
    + rewrite length_take. lia.
  - intros. apply append_message_stored.
  - intros. apply run_history_capped.
Qed.

(** What seeding stores in an empty buffer: the system dict, then the
    messages in the order the platform delivers them. *)
Lemma seed_stores (e : env) (channel_id : Z) (st : state) (log : list message) :
  stored_history channel_id st = [] ->
  channel_log e (length (trace st)) = Ok log ->
  stored_history channel_id (seed e channel_id st).2
  = Dict system_turn :: (Msg <$> take MAX_HISTORY (reverse log)).
Proof.
  intros Hempty Hlog.
  unfold seed, bind, read. rewrite Hempty.
  unfold history, bind, remote. rewrite Hlog.
  unfold ret, store_history, modify, stored_history. simpl.
  by rewrite lookup_insert_eq.
Qed.

(** C8 (the code at the failing input).  A channel with an empty buffer
    whose platform log is an older message followed by a newer one is
    seeded with the newer message before the older one: the messages are
    stored in the order of delivery, which is not the chronological
    order. *)
Theorem seed_keeps_delivery_order e channel_id st older newer :
  stored_history channel_id st = [] ->
  channel_log e (length (trace st)) = Ok [older; newer] ->
  stored_history channel_id (seed e channel_id st).2
  = [Dict system_turn; Msg newer; Msg older]
  /\ (older <> newer ->
      stored_history channel_id (seed e channel_id st).2
      <> [Dict system_turn; Msg older; Msg newer]).
Proof.
  intros Hempty Hlog. rewrite (seed_stores e channel_id st [older; newer]) by done.
  split; [done|]. intros Hne [= H _]. by apply Hne.
Qed.

Lemma seed_keeps_delivery_order_witness :
  stored_history 1
    (seed (with_channel_log [older_message; newer_message] quiet_env) 1
          initial_state).2
  = [Dict system_turn; Msg newer_message; Msg older_message].
Proof.
  apply (seed_keeps_delivery_order
           (with_channel_log [older_message; newer_message] quiet_env)
           1 initial_state older_message newer_message); reflexivity.
Defined.

(** ** The regular expressions of the program *)

Section Repetition.

Variable p : ascii -> bool.
Variable k : bool -> string -> option string.

(** An exact count [{n}]. *)
Lemma rep_exact_O bol s : Re.rep p k 0 (Some 0) bol s = k bol s.
Proof. by destruct s. Qed.

Lemma rep_exact_S n bol s :
  Re.rep p k (S n) (Some (S n)) bol s
  = match s with
    | String c s' => if p c then Re.rep p k n (Some n) false s' else None
    | EmptyString => None
    end.
Proof.
  destruct s as [|c s']; [done|]. simpl.
  destruct (p c); [|done]. by destruct (Re.rep p k n (Some n) false s').
Qed.

(** An unbounded repetition whose continuation cannot start with a
    character of the class: no shorter run is ever taken. *)
Hypothesis k_stops : forall b c s, p c = true -> k b (String c s) = None.

Lemma rep_greedy_take lo bol c s :
  p c = true ->
  Re.rep p k lo None bol (String c s) = Re.rep p k (Nat.pred lo) None false s.
Proof.
  intros Hc. simpl. rewrite Hc.
  destruct (Re.rep p k (Nat.pred lo) None false s); [done|].
  destruct lo; [by apply k_stops | done].
Qed.

Lemma rep_greedy_stop lo bol s :
  match s with String c _ => p c = false | EmptyString => True end ->
  Re.rep p k lo None bol s = match lo with O => k bol s | S _ => None end.
Proof. destruct s as [|c s]; [done|]. intros Hc. simpl. by rewrite Hc. Qed.

End Repetition.

(** [\s*] at the end of a pattern takes the leading white space. *)
Lemma rep_spaces_end bol s :
  Re.rep Py.is_space (Re.match_here []) 0 None bol s = Some (Py.lstrip s).
Proof.
  revert bol. induction s as [|c s IH]; intros bol; [done|].
  simpl. destruct (Py.is_space c); [|done]. simpl in IH. by rewrite IH.
Qed.

(** *** The zipcode pattern *)

Lemma zip_pattern_match (z : string) :
  Re.match_here Re.zip_pattern true z
  = match z with
    | String c1 (String c2 (String c3 (String c4 (String c5 rest)))) =>
        if Py.is_digit c1 && Py.is_digit c2 && Py.is_digit c3
           && Py.is_digit c4 && Py.is_digit c5 && Re.at_eol rest
        then Some rest else None
    | _ => None
    end.
Proof.
  unfold Re.zip_pattern. cbn [Re.match_here].
  destruct z as [|c1 [|c2 [|c3 [|c4 [|c5 rest]]]]];
    repeat (rewrite rep_exact_S;
            try match goal with |- context [Py.is_digit ?c] =>
                  destruct (Py.is_digit c) end);
    try done.
  rewrite rep_exact_O. by destruct (Re.at_eol rest).
Qed.

Lemma five_digits_shape (d : string) :
  five_digits d = true
  <-> exists c1 c2 c3 c4 c5,
        d = String c1 (String c2 (String c3 (String c4 (String c5 ""))))
        /\ Py.is_digit c1 = true /\ Py.is_digit c2 = true
        /\ Py.is_digit c3 = true /\ Py.is_digit c4 = true
        /\ Py.is_digit c5 = true.
Proof.
  unfold five_digits. split.
  - intros [Hlen Hall]%andb_prop.
    destruct d as [|c1 [|c2 [|c3 [|c4 [|c5 [|c6 d]]]]]]; try discriminate.
    simpl in Hall. rewrite andb_true_r in Hall.
    apply andb_prop in Hall as [H1 Hall]. apply andb_prop in Hall as [H2 Hall].
    apply andb_prop in Hall as [H3 Hall]. apply andb_prop in Hall as [H4 H5].
    by exists c1, c2, c3, c4, c5.
  - intros (c1 & c2 & c3 & c4 & c5 & -> & H1 & H2 & H3 & H4 & H5).
    simpl. by rewrite H1, H2, H3, H4, H5.
Qed.

(** The pattern accepts the five-digit strings and, because [$] also
    matches before a final newline, the five-digit strings followed by
    one newline; nothing else. *)
Lemma zip_pattern_accepts (z : string) :
  Re.matches Re.zip_pattern z = true
  <-> five_digits z = true
      \/ exists d, five_digits d = true /\ z = d +:+ Py.nl.
Proof.
  unfold Re.matches. rewrite zip_pattern_match. split.
  - destruct z as [|c1 [|c2 [|c3 [|c4 [|c5 rest]]]]]; try done.
    destruct (Py.is_digit c1) eqn:H1; [|done].
    destruct (Py.is_digit c2) eqn:H2; [|done].
    destruct (Py.is_digit c3) eqn:H3; [|done].
    destruct (Py.is_digit c4) eqn:H4; [|done].
    destruct (Py.is_digit c5) eqn:H5; [|done].
    destruct rest as [|c6 [|c7 rest]]; simpl; [| |done].
    + intros _. left. apply five_digits_shape. by exists c1, c2, c3, c4, c5.
    + destruct (Ascii.eqb_spec c6 Py.newline) as [-> | Hne]; [|done].
      intros _. right.
      exists (String c1 (String c2 (String c3 (String c4 (String c5 ""))))).
      split; [|done]. apply five_digits_shape. by exists c1, c2, c3, c4, c5.
  - intros [H | (d & H & ->)];
      apply five_digits_shape in H
        as (c1 & c2 & c3 & c4 & c5 & -> & H1 & H2 & H3 & H4 & H5);
      simpl; by rewrite H1, H2, H3, H4, H5.
Qed.

(** A stripped text does not end with a newline, so on the input [get]
    checks the pattern is exact. *)
Lemma rstrip_not_space_end (s : string) (c : ascii) :
  Py.is_space c = true -> forall pre, Py.rstrip s <> pre +:+ String c "".
Proof.
  intros Hc. induction s as [|a s IH]; intros pre; simpl.
  - by destruct pre.
  - destruct (Py.is_space a && Py.is_empty (Py.rstrip s)) eqn:Hcond.
    + by destruct pre.
    + destruct pre as [|b pre]; simpl.
      * intros [= -> Hs]. rewrite Hs, Hc in Hcond. done.
      * intros [= -> Hs]. by apply (IH pre).
Qed.

Lemma zip_pattern_on_stripped (r : string) :
  Re.matches Re.zip_pattern (Py.strip r) = five_digits (Py.strip r).
Proof.
  apply eq_true_iff_eq. rewrite zip_pattern_accepts. split; [|by left].
  intros [H | (d & _ & Hd)]; [done|].
  unfold Py.strip in Hd. by apply rstrip_not_space_end in Hd.
Qed.

(** *** The numbered-line patterns *)

Section NumberedLine.

(** What follows [^\d+\.] in the pattern. *)
Variable tail : Re.pattern.

Let after_period := Re.match_here tail.
Let period := Re.rep (Ascii.eqb ".") after_period 1 (Some 1).

Lemma period_match b s :
  period b s
  = match s with
    | String d rest => if Ascii.eqb "." d then after_period false rest else None
    | EmptyString => None
    end.
Proof.
  unfold period. rewrite rep_exact_S. destruct s as [|d rest]; [done|].
  by rewrite rep_exact_O.
Qed.

Lemma period_stops b c s : Py.is_digit c = true -> period b (String c s) = None.
Proof.
  intros Hc. rewrite period_match.
  destruct (Ascii.eqb_spec "." c) as [<- | _]; done.
Qed.

Lemma digits_then_period b s :
  Re.rep Py.is_digit period 0 None b s = period false (drop_digits s).
Proof.
  revert b. induction s as [|c s IH]; intros b.
  - by rewrite !period_match.
  - destruct (Py.is_digit c) eqn:Hc.
    + rewrite (rep_greedy_take _ _ period_stops) by done.
      simpl. rewrite Hc. apply IH.
    + rewrite rep_greedy_stop by done. simpl. rewrite Hc.
      by rewrite !period_match.
Qed.

Lemma numbered_match t :
  Re.match_here (Re.Bol :: Re.Rep Py.is_digit 1 None
                   :: Re.one (Ascii.eqb ".") :: tail) true t
  = match numbered_rest t with
    | Some rest => Re.match_here tail false rest
    | None => None
    end.
Proof.
  cbn [Re.match_here]. unfold Re.one. fold after_period. fold period.
  unfold numbered_rest. destruct t as [|c s]; [done|].
  destruct (Py.is_digit c) eqn:Hc.
  - rewrite (rep_greedy_take _ _ period_stops) by done.
    cbn [Nat.pred]. rewrite digits_then_period, period_match.
    cbn [drop_digits]. rewrite Hc.
    destruct (drop_digits s) as [|d rest]; [done|].
    by destruct (Ascii.eqb "." d).
  - by rewrite rep_greedy_stop.
Qed.

End NumberedLine.

Lemma numbered_pattern_matches t :
  Re.matches Re.numbered_pattern t
  = match numbered_rest t with Some _ => true | None => false end.
Proof.
  unfold Re.matches, Re.numbered_pattern. rewrite numbered_match.
  by destruct (numbered_rest t).
Qed.

Lemma number_prefix_match t :
  Re.match_here Re.number_prefix_pattern true t = Py.lstrip <$> numbered_rest t.
Proof.
  unfold Re.number_prefix_pattern. rewrite numbered_match.
  destruct (numbered_rest t) as [rest|]; [|done].
  cbn [Re.match_here]. apply rep_spaces_end.
Qed.

(** The numbered prefix is a non-empty prefix of the text. *)
Lemma drop_digits_suffix s : exists pre, s = pre +:+ drop_digits s.
Proof.
  induction s as [|c s [pre IH]]; [by exists ""|]. simpl.
  destruct (Py.is_digit c); [|by exists ""].
  exists (String c pre). by rewrite append_cons, <- IH.
Qed.

Lemma numbered_rest_suffix t rest :
  numbered_rest t = Some rest ->
  exists c pre, t = String c pre +:+ rest.
Proof.
  unfold numbered_rest. destruct t as [|c s]; [done|].
  destruct (Py.is_digit c) eqn:Hc; [|done].
  cbn [drop_digits]. rewrite Hc.
  destruct (drop_digits_suffix s) as [pre Hpre].
  destruct (drop_digits s) as [|d rest']; [done|].
  destruct (Ascii.eqb "." d); [|done]. intros [= <-].
  exists c, (pre +:+ String d ""). rewrite append_cons, append_assoc.
  by rewrite Hpre at 1.
Qed.

Lemma lstrip_suffix s : exists sp, s = sp +:+ Py.lstrip s.
Proof.
  induction s as [|c s [sp IH]]; [by exists ""|]. simpl.
  destruct (Py.is_space c); [|by exists ""].
  exists (String c sp). by rewrite append_cons, <- IH.
Qed.

(** *** [re.sub] with an anchored pattern *)

Section AnchoredSub.

Variables (pat : Re.pattern) (repl : string).

Lemma sub_go_anchored_rest s :
  Re.sub_go (Re.Bol :: pat) repl false 0 s = s.
Proof. induction s as [|c s IH]; [done|]. simpl in *. by rewrite IH. Qed.

Lemma sub_go_skip pre s :
  Re.sub_go (Re.Bol :: pat) repl false (String.length pre) (pre +:+ s) = s.
Proof.
  induction pre as [|c pre IH].
  - apply sub_go_anchored_rest.
  - rewrite append_cons. cbn [String.length Re.sub_go]. apply IH.
Qed.

Lemma append_length s t :
  String.length (s +:+ t) = String.length s + String.length t.
Proof.
  induction s as [|c s IH]; [done|]. rewrite append_cons. simpl. by rewrite IH.
Qed.

Lemma sub_go_match p bol c s rest :
  Re.match_here p bol (String c s) = Some rest ->
  Re.sub_go p repl bol 0 (String c s)
  = match String.length (String c s) - String.length rest with
    | S n => repl +:+ Re.sub_go p repl false n s
    | O => repl +:+ String c (Re.sub_go p repl false 0 s)
    end.
Proof. intros Hm. cbn [Re.sub_go]. by rewrite Hm. Qed.

Lemma sub_anchored c pre rest :
  Re.match_here (Re.Bol :: pat) true (String c pre +:+ rest) = Some rest ->
  Re.sub (Re.Bol :: pat) repl (String c pre +:+ rest) = repl +:+ rest.
Proof.
  intros Hm. unfold Re.sub. rewrite append_cons in *.
  rewrite (sub_go_match _ _ _ _ _ Hm). cbn [String.length].
  rewrite append_length.
  replace (S (String.length pre + String.length rest) - String.length rest)
    with (S (String.length pre)) by lia.
  by rewrite sub_go_skip.
Qed.

End AnchoredSub.

(** *** Stripping *)

Lemma rstrip_idempotent s : Py.rstrip (Py.rstrip s) = Py.rstrip s.
Proof.
  induction s as [|c s IH]; [done|]. simpl.
  destruct (Py.is_space c && Py.is_empty (Py.rstrip s)) eqn:Hc; [done|].
  simpl. by rewrite IH, Hc.
Qed.

(** A suffix of a text without trailing white space has none either. *)
Lemma rstrip_suffix pre s :
  Py.rstrip (pre +:+ s) = pre +:+ s -> Py.rstrip s = s.
Proof.
  induction pre as [|c pre IH]; [done|]. rewrite append_cons. simpl.
  destruct (Py.is_space c && Py.is_empty (Py.rstrip (pre +:+ s))); [done|].
  intros [= H]. by apply IH.
Qed.

(** *** The question parser *)

(** One line, as the loop body of [get_dynamic_questions] treats it. *)
Lemma parse_line_spec (line : string) :
  (if Re.matches Re.numbered_pattern (Py.strip line)
   then
     let question := Re.sub Re.number_prefix_pattern "" (Py.strip line) in
     if negb (Py.is_empty question) then Some question else None
   else None)
  = spec_question line.
Proof.
  unfold spec_question. rewrite numbered_pattern_matches.
  destruct (numbered_rest (Py.strip line)) as [rest|] eqn:Hrest; [|done].
  destruct (numbered_rest_suffix _ _ Hrest) as (c & pre & Ht).
  destruct (lstrip_suffix rest) as [sp Hsp].
  assert (Hsplit : Py.strip line = String c (pre +:+ sp) +:+ Py.lstrip rest).
  { rewrite Ht, Hsp at 1. by rewrite !append_cons, append_assoc. }
  assert (Hq : Re.sub Re.number_prefix_pattern "" (Py.strip line)
               = Py.lstrip rest).
  { rewrite Hsplit. unfold Re.number_prefix_pattern.
    rewrite sub_anchored; [done|].
    rewrite <- Hsplit. fold Re.number_prefix_pattern.
    by rewrite number_prefix_match, Hrest. }
  assert (Hclean : Py.strip rest = Py.lstrip rest).
  { unfold Py.strip at 1. apply (rstrip_suffix (String c (pre +:+ sp))).
    rewrite <- Hsplit. unfold Py.strip. apply rstrip_idempotent. }
  cbv zeta. rewrite Hq, Hclean. by destruct (Py.lstrip rest).
Qed.

Lemma parse_lines_spec (lines : list string) (questions : list string) :
  parse_lines lines questions = questions ++ omap spec_question lines.
Proof.
  revert questions. induction lines as [|line lines IH]; intros questions.
  - by rewrite app_nil_r.
  - cbn [parse_lines omap list_omap]. rewrite <- parse_line_spec.
    destruct (Re.matches Re.numbered_pattern (Py.strip line)); [|apply IH].
    cbv zeta.
    destruct (negb (Py.is_empty _)); rewrite IH; [|done].
    by rewrite <- app_assoc.
Qed.

(** C6.  The parser keeps, line by line, what the specification's wording
    keeps, and on the specification's example text it returns the two
    questions "Foo?" and "Bar?" in that order. *)
Theorem parse_questions_spec :
  (forall response, parse_questions response = spec_parse response)
  /\ parse_questions
       ("1. Foo?" +:+ Py.nl +:+ "2.Bar?" +:+ Py.nl +:+ "not a question"
        +:+ Py.nl +:+ "3.   " +:+ Py.nl)
     = ["Foo?"; "Bar?"].
Proof.
  split; [|reflexivity].
  intros response. unfold parse_questions, spec_parse.
  by rewrite parse_lines_spec.
Qed.

(** ** Reasoning about the monad *)

Section Frames.

Context (R : state -> state -> Prop) `{!PreOrder R}.
Context {A B : Type}.

Lemma frame_ret (a : A) : frame R (ret a).
Proof. intros st. simpl. reflexivity. Qed.

Lemma frame_raise (ex : exn) : frame R (@raise A ex).
Proof. intros st. simpl. reflexivity. Qed.

Lemma frame_read (f : state -> A) : frame R (read f).
Proof. intros st. simpl. reflexivity. Qed.

Lemma frame_lift (o : outcome A) : frame R (lift o).
Proof. intros st. simpl. reflexivity. Qed.

Lemma frame_bind (m : M A) (k : A -> M B) :
  frame R m -> (forall a, frame R (k a)) -> frame R (bind m k).
Proof.
  intros Hm Hk st. unfold bind. specialize (Hm st).
  destruct (m st) as [[a|ex] st']; simpl in *; [|done].
  etrans; [done | apply Hk].
Qed.

Lemma frame_try_except (body : M A) (handler : exn -> M A) :
  frame R body -> (forall ex, frame R (handler ex)) ->
  frame R (try_except body handler).
Proof.
  intros Hb Hh st. unfold try_except. specialize (Hb st).
  destruct (body st) as [[a|ex] st']; simpl in *; [done|].
  destruct (is_exception ex); [|done]. etrans; [done | apply Hh].
Qed.

Lemma frame_try_except_timeout (body handler : M A) :
  frame R body -> frame R handler ->
  frame R (try_except_timeout body handler).
Proof.
  intros Hb Hh st. unfold try_except_timeout. specialize (Hb st).
  destruct (body st) as [[a|[| |]] st']; simpl in *; try done.
  etrans; [done | apply Hh].
Qed.

Lemma frame_remote (c : call) (answer : nat -> outcome A) :
  (forall st, R st (record_call c st)) -> frame R (remote c answer).
Proof. intros Hc st. apply Hc. Qed.

End Frames.

Global Instance adds_calls_preorder P : PreOrder (adds_calls P).
Proof.
  split.
  - intros st. repeat split. exists []. by rewrite app_nil_r.
  - intros st1 st2 st3 (Hf1 & Hu1 & Hh1 & cs1 & Ht1 & HP1)
                       (Hf2 & Hu2 & Hh2 & cs2 & Ht2 & HP2).
    repeat split; try congruence.
    exists (cs1 ++ cs2). split; [|by apply Forall_app].
    by rewrite Ht2, Ht1, app_assoc.
Qed.

Lemma adds_calls_record (P : call -> Prop) c st :
  P c -> adds_calls P st (record_call c st).
Proof. intros Hc. repeat split. exists [c]. split; [done | by constructor]. Qed.

Lemma adds_calls_weaken (P Q : call -> Prop) st st' :
  (forall c, P c -> Q c) -> adds_calls P st st' -> adds_calls Q st st'.
Proof.
  intros HPQ (Hf & Hu & Hh & cs & Ht & HP). repeat split; try done.
  exists cs. split; [done|]. eapply Forall_impl; eauto.
Qed.

(** A tactic that walks through a computation built from the
    combinators. *)
Ltac frame_step :=
  first
    [ match goal with |- PreOrder _ => apply _ end
    | apply frame_ret | apply frame_raise | apply frame_read | apply frame_lift
    | apply frame_bind | apply frame_try_except | apply frame_try_except_timeout
    | apply frame_remote; intros; apply adds_calls_record
    | progress intros
    | match goal with
      | |- frame _ (match ?x with _ => _ end) => destruct x
      | |- frame _ (if ?x then _ else _) => destruct x
      | |- frame _ (let '(_, _) := ?x in _) => destruct x
      end ].

Ltac frame_auto := repeat frame_step; try done.

Section PlatformCalls.

Variable e : env.

Lemma send_platform text : frame platform_only (send e text).
Proof. unfold send, platform_only. frame_auto. Qed.

Lemma history_platform n : frame platform_only (history e n).
Proof. unfold history, platform_only. frame_auto. Qed.

Lemma send_each_platform pieces : frame platform_only (send_each e pieces).
Proof.
  induction pieces as [|p pieces IH]; simpl.
  - unfold platform_only. frame_auto.
  - apply frame_bind; [apply _ | apply send_platform | done].
Qed.

Lemma send_long_message_platform content :
  frame platform_only (send_long_message e content).
Proof. apply send_each_platform. Qed.

Lemma message_business_platform n m :
  frame platform_only (message_business e n m).
Proof.
  unfold message_business.
  repeat first
    [ apply send_platform | apply history_platform
    | apply send_long_message_platform
    | apply frame_bind; [apply _ | |]
    | apply frame_try_except; [apply _ | |]
    | apply frame_ret; apply _
    | progress intros
    | match goal with
      | |- frame _ (match ?x with _ => _ end) => destruct x
      | |- frame _ (if ?x then _ else _) => destruct x
      end ].
Qed.

End PlatformCalls.

(** ** Commands that need a session *)

(** C7 (counterexample).  For a user without a session, [message] still
    goes through when the channel holds a listing: it reads the channel,
    not the session map, and sends the messaging instructions instead of
    a rejection. *)
Lemma message_without_session_proceeds :
  user_context initial_state !! 7%Z = None
  /\ message_business listing_env "1" None initial_state
     = (Ok tt,
        record_calls
          [History 20;
           Send (message_instructions "Joe's Pizza"
                   "https://www.yelp.com/message_the_business/joes-pizza"
                   default_message)]
          initial_state)
  /\ message_instructions "Joe's Pizza"
       "https://www.yelp.com/message_the_business/joes-pizza" default_message
     <> get_first.
Proof.
  split; [done|]. split; [vm_compute; reflexivity|].
  intros H. vm_compute in H. discriminate.
Qed.

(** What [message] answers when the channel holds no listing. *)
Lemma message_business_no_listing e n m st log :
  truthy (yelp_api_key e) = true ->
  channel_log e (length (trace st)) = Ok log ->
  List.find (fun msg => (msg_author msg =? bot_user e)%Z
                        && Py.contains listing_marker (msg_content msg))
            (take 20 (reverse log)) = None ->
  exists rest,
    (message_business e n m st).2
    = record_calls (History 20 :: Send search_first :: rest) st.
Proof.
  intros Hkey Hlog Hfind.
  unfold message_business, try_except. rewrite Hkey. cbn [negb].
  unfold history, bind, remote, ret. rewrite Hlog, Hfind.
  unfold send, remote. cbn [trace record_call].
  unfold record_calls, record_call. cbn.
  destruct (on_send e _ _) as [[]|ex]; cbn.
  - exists []. by rewrite <- app_assoc.
  - destruct (is_exception ex); cbn.
    + eexists [_]. by rewrite <- !app_assoc.
    + exists []. by rewrite <- app_assoc.
Qed.

(** ** Commands other than [get] only make calls *)

Section CallsOnly.

Variable e : env.

Lemma remote_calls_only {A} c (answer : nat -> outcome A) :
  frame calls_only (remote c answer).
Proof. apply frame_remote. intros st. by apply adds_calls_record. Qed.

Lemma platform_calls_only {A} (m : M A) :
  frame platform_only m -> frame calls_only m.
Proof. intros H st. eapply adds_calls_weaken; [|apply H]. done. Qed.

Ltac calls_step :=
  first
    [ match goal with |- PreOrder _ => apply _ end
    | apply remote_calls_only
    | apply frame_ret | apply frame_raise | apply frame_read
    | apply frame_lift | apply frame_bind | apply frame_try_except
    | apply frame_try_except_timeout
    | progress intros
    | match goal with
      | |- frame _ (match ?x with _ => _ end) => destruct x
      | |- frame _ (if ?x then _ else _) => destruct x
      end ].

Lemma each_business_calls_only bs i results :
  frame calls_only (each_business e i bs results).
Proof.
  revert i results. induction bs as [|b bs IH]; intros i results; simpl.
  - apply frame_ret; apply _.
  - apply frame_bind; [apply _ | | intros; apply IH].
    unfold business_query. repeat calls_step.
Qed.

Lemma yelp_search_calls_only term zipcode :
  frame calls_only (yelp_search e term zipcode).
Proof.
  unfold yelp_search, search_query.
  repeat first [apply each_business_calls_only | calls_step].
Qed.

Lemma send_each_calls_only pieces : frame calls_only (send_each e pieces).
Proof. apply platform_calls_only, send_each_platform. Qed.

Lemma run_with_text_calls_only text : frame calls_only (run_with_text e text).
Proof. apply remote_calls_only. Qed.

Lemma draft_dynamic_message_calls_only business_type answers :
  frame calls_only (draft_dynamic_message e business_type answers).
Proof.
  unfold draft_dynamic_message.
  repeat first [apply run_with_text_calls_only | calls_step].
Qed.

Lemma draft_each_calls_only s bs : frame calls_only (draft_each e s bs).
Proof.
  induction bs as [|b bs IH]; simpl.
  - apply frame_ret; apply _.
  - repeat first [apply draft_dynamic_message_calls_only
                 | apply send_each_calls_only | apply IH | calls_step].
Qed.

Lemma list_businesses_calls_only author :
  frame calls_only (list_businesses e author).
Proof.
  unfold list_businesses, send, delete.
  repeat first [apply yelp_search_calls_only | apply send_each_calls_only
               | calls_step].
Qed.

Lemma draft_calls_only author : frame calls_only (draft e author).
Proof.
  unfold draft, send.
  repeat first [apply yelp_search_calls_only | apply draft_each_calls_only
               | calls_step].
Qed.

Lemma search_calls_only term zipcode : frame calls_only (search e term zipcode).
Proof.
  unfold search, send, delete.
  repeat first [apply yelp_search_calls_only | apply send_each_calls_only
               | calls_step].
Qed.

Lemma message_business_calls_only n m :
  frame calls_only (message_business e n m).
Proof. apply platform_calls_only, message_business_platform. Qed.

End CallsOnly.

(** C7 (amended).  For a user without a stored session, [list] and
    [draft] send the "run !get first" rejection and make no other call.
    [message] never reads the session map: whoever invokes it, it calls
    the chat platform only (no search query, detail lookup or completion
    call), and when none of the channel's 20 latest messages is a listing
    posted by the bot it answers "run a !search command first". *)
Theorem commands_without_session e author st :
  user_context st !! author = None ->
  (list_businesses e author st).2 = record_call (Send get_first) st
  /\ (draft e author st).2 = record_call (Send get_first) st
  /\ (forall n m, platform_only st (message_business e n m st).2)
  /\ (forall n m log,
        truthy (yelp_api_key e) = true ->
        channel_log e (length (trace st)) = Ok log ->
        List.find (fun msg => (msg_author msg =? bot_user e)%Z
                              && Py.contains listing_marker (msg_content msg))
                  (take 20 (reverse log)) = None ->
        exists rest,
          (message_business e n m st).2
          = record_calls (History 20 :: Send search_first :: rest) st).
Proof.
  intros Hnone. split; [|split; [|split]].
  - unfold list_businesses, bind, read. by rewrite Hnone.
  - unfold draft, bind, read. by rewrite Hnone.
  - intros n m. apply message_business_platform.
  - intros n m log. apply message_business_no_listing.
Qed.

Lemma commands_without_session_witness :
  user_context initial_state !! 7%Z = None
  /\ (list_businesses quiet_env 7 initial_state).2
     = record_call (Send get_first) initial_state.
Proof.
  split; [done|].
  apply (commands_without_session quiet_env 7 initial_state). done.
Defined.

(** ** The interactive flag *)

Lemma get_clears_flag e author st :
  interactive_session_active (get e author st).2 = false.
Proof.
  unfold get, bind, modify, try_finally.
  by destruct (try_except _ _ _) as [r st'].
Qed.

Global Instance keeps_flag_clear_preorder : PreOrder keeps_flag_clear.
Proof.
  split.
  - intros st Hclear. exact Hclear.
  - intros st1 st2 st3 H12 H23 H1. by apply H23, H12.
Qed.

Section FlagKept.

Variable e : env.

Lemma calls_only_keeps_flag {A} (m : M A) :
  frame calls_only m -> frame keeps_flag_clear m.
Proof.
  intros H st. unfold keeps_flag_clear. by destruct (H st) as [-> _].
Qed.

Lemma get_keeps_flag author : frame keeps_flag_clear (get e author).
Proof. intros st. unfold keeps_flag_clear. intros _. apply get_clears_flag. Qed.

Lemma store_history_keeps_flag channel_id h :
  frame keeps_flag_clear (store_history channel_id h).
Proof. intros st. unfold keeps_flag_clear. done. Qed.

Lemma run_keeps_flag channel_id m : frame keeps_flag_clear (run e channel_id m).
Proof.
  unfold run, seed, append_message, complete, history.
  repeat first
    [ apply store_history_keeps_flag
    | apply calls_only_keeps_flag, remote_calls_only
    | apply frame_ret; apply _ | apply frame_read; apply _
    | apply frame_lift; apply _
    | apply frame_bind; [apply _ | |]
    | progress intros
    | match goal with
      | |- frame _ (match ?x with _ => _ end) => destruct x
      end ].
Qed.

Lemma initiate_each_calls_only s bs i :
  frame calls_only (initiate_each e s i bs).
Proof.
  revert i. induction bs as [|b bs IH]; intros i; simpl.
  - apply frame_ret; apply _.
  - repeat first
      [ apply draft_dynamic_message_calls_only
      | apply send_each_calls_only | apply IH
      | apply frame_ret; apply _ | apply frame_raise; apply _
      | apply frame_bind; [apply _ | |]
      | progress intros
      | match goal with
        | |- frame _ (match ?x with _ => _ end) => destruct x
        end ].
Qed.

Lemma initiate_keeps_flag author : frame keeps_flag_clear (initiate e author).
Proof.
  unfold initiate.
  repeat first
    [ apply get_keeps_flag
    | apply calls_only_keeps_flag;
      first [ apply list_businesses_calls_only | apply yelp_search_calls_only
            | apply initiate_each_calls_only | apply remote_calls_only ]
    | apply frame_read; apply _
    | apply frame_bind; [apply _ | |]
    | progress intros
    | match goal with
      | |- frame _ (match ?x with _ => _ end) => destruct x
      end ].
Qed.

Lemma exec_keeps_flag author c : frame keeps_flag_clear (exec e author c).
Proof.
  destruct c as [arg|arg|term z| |n m| | | |n|]; simpl.
  - apply calls_only_keeps_flag. destruct arg; apply remote_calls_only.
  - apply calls_only_keeps_flag. unfold ask, send.
    destruct arg; [|apply remote_calls_only].
    apply frame_try_except; [apply _ | | intros; apply remote_calls_only].
    apply frame_bind; [apply _ | apply remote_calls_only |].
    intros; apply remote_calls_only.
  - apply calls_only_keeps_flag, search_calls_only.
  - apply get_keeps_flag.
  - apply calls_only_keeps_flag, message_business_calls_only.
  - apply calls_only_keeps_flag, list_businesses_calls_only.
  - apply initiate_keeps_flag.
  - apply calls_only_keeps_flag, draft_calls_only.
  - apply calls_only_keeps_flag, message_business_calls_only.
  - apply calls_only_keeps_flag, send_each_calls_only.
Qed.

Lemma forward_ambient_keeps_flag channel_id m :
  frame keeps_flag_clear (forward_ambient e channel_id m).
Proof.
  unfold forward_ambient, history.
  repeat first
    [ apply run_keeps_flag
    | apply calls_only_keeps_flag;
      first [ apply send_each_calls_only | apply remote_calls_only ]
    | apply frame_ret; apply _ | apply frame_read; apply _
    | apply frame_bind; [apply _ | |]
    | progress intros
    | match goal with
      | |- frame _ (if ?x then _ else _) => destruct x
      end ].
Qed.

Lemma process_commands_keeps_flag m :
  frame keeps_flag_clear (process_commands e m).
Proof.
  unfold process_commands.
  destruct (_ || _); [apply frame_ret; apply _|].
  destruct (on_dispatch e m) as [c|]; [|apply frame_ret; apply _].
  apply frame_try_except; [apply _ | apply exec_keeps_flag |].
  intros; apply frame_ret; apply _.
Qed.

Lemma on_message_keeps_flag channel_id m :
  frame keeps_flag_clear (on_message e channel_id m).
Proof.
  unfold on_message.
  apply frame_bind; [apply _ | apply process_commands_keeps_flag |].
  intros; apply forward_ambient_keeps_flag.
Qed.

Lemma handle_keeps_flag ev : frame keeps_flag_clear (handle e ev).
Proof.
  destruct ev; [apply exec_keeps_flag | apply on_message_keeps_flag].
Qed.

End FlagKept.

(** C1.  However a run of [get] ends (completion, a rejected business type
    or zipcode, a timeout, an error of any class), the flag is false when
    it returns; and the flag is false after any sequence of commands and
    ambient messages handled one after the other from the initial state,
    hence before every [get] of such a sequence. *)
Theorem get_releases_flag :
  (forall e author st, interactive_session_active (get e author st).2 = false)
  /\ (forall script,
        interactive_session_active (run_script script initial_state) = false).
Proof.
  split; [apply get_clears_flag|].
  intros script.
  assert (H : forall st, interactive_session_active st = false ->
                         interactive_session_active (run_script script st) = false).
  { induction script as [|[e ev] script IH]; intros st Hst; [done|].
    simpl. apply IH. by apply handle_keeps_flag. }
  by apply H.
Qed.

(** ** The business search *)

(** A rejected zipcode: the validation message, an empty list, and no
    call. *)
Lemma yelp_search_rejects e term z st :
  Re.matches Re.zip_pattern z = false ->
  yelp_search e term z st = (Ok (zipcode_error, []), st).
Proof. intros Hz. unfold yelp_search. by rewrite Hz. Qed.

(** C2 (the code at the failing input).  The six-character zipcode made
    of "12345" and a newline is not a string of five digits, yet the
    search does not reject it: the search query is sent with it. *)
Theorem yelp_search_accepts_trailing_newline e st :
  let z := "12345" +:+ Py.nl in
  five_digits z = false
  /\ Re.matches Re.zip_pattern z = true
  /\ exists calls,
       trace (yelp_search e "pizza" z st).2
       = trace st ++ SearchQuery "pizza" z :: calls.
Proof.
  cbv zeta. split; [done|]. split; [done|].
  unfold yelp_search. change (Re.matches _ _) with true. cbn [negb].
  unfold try_except, bind, search_query, remote.
  destruct (on_search_query e _ _ _) as [[[|b bs]|]|ex].
  - by exists [].
  - destruct (each_business_calls_only e (b :: bs) 1
                [listing_header "pizza" ("12345" +:+ Py.nl)]
                (record_call (SearchQuery "pizza" ("12345" +:+ Py.nl)) st))
      as (_ & _ & _ & calls & Hcalls & _).
    destruct (each_business _ _ _ _ _) as [[results|ex] st'].
    + exists calls. simpl in *. by rewrite Hcalls, <- app_assoc.
    + exists calls. destruct (is_exception ex); simpl in *;
        by rewrite Hcalls, <- app_assoc.
  - by exists [].
  - exists []. by destruct (is_exception ex).
Qed.

(** *** One detail lookup that fails *)

Lemma each_business_blocks e bs : forall i results st,
  (forall k b ex,
     bs !! k = Some b ->
     on_business_query e (length (trace st) + k) (biz_id b) = Raise ex ->
     is_exception ex = true) ->
  each_business e i bs results st
  = (Ok (results
         ++ imap (fun k b => detail_block e (length (trace st) + k) (i + k) b) bs),
     record_calls ((fun b => BusinessQuery (biz_id b)) <$> bs) st).
Proof.
  induction bs as [|b bs IH]; intros i results st Hexn.
  - simpl. unfold ret, record_calls. rewrite !app_nil_r. by destruct st.
  - cbn [each_business]. unfold bind at 1.
    assert (Hstep :
      try_except
        (do d <- business_query e (biz_id b);
         match render_detailed (weekday e) i b d with
         | Some block => ret (results ++ [block])
         | None => raise (Error "invalid literal for int() with base 10")
         end)
        (fun _ => ret (results ++ [render_fallback i b])) st
      = (Ok (results ++ [detail_block e (length (trace st)) i b]),
         record_call (BusinessQuery (biz_id b)) st)).
    { unfold try_except, bind, business_query, remote, detail_block.
      destruct (on_business_query e (length (trace st)) (biz_id b))
        as [d|ex] eqn:Hq.
      - by destruct (render_detailed (weekday e) i b d).
      - rewrite (Hexn 0 b ex); [done | done |]. by rewrite Nat.add_0_r. }
    rewrite Hstep.
    rewrite IH.
    + f_equal.
      * f_equal. rewrite <- app_assoc. f_equal. cbn [imap app].
        rewrite !Nat.add_0_r. f_equal. apply imap_ext. intros k x _.
        cbn [trace record_call]. rewrite length_app. simpl.
        f_equal; lia.
      * unfold record_calls, record_call. cbn. by rewrite <- app_assoc.
    + intros k x ex Hk. cbn [trace record_call]. rewrite length_app. simpl.
      replace (length (trace st) + 1 + k) with (length (trace st) + S k) by lia.
      by apply Hexn.
Qed.




(** ** The question generator *)

(** C5.  When the completion call raises an exception, or answers with a
    text in which the parser finds no question, the generator returns the
    five fallback questions (needs, timing, requirements, budget, other),
    as a value and not as an error. *)
Theorem questions_fallback e business_type st :
  let request := [system_turn; Turn "user" (questions_prompt business_type)] in
  (exists ex, on_complete e (length (trace st)) request = Raise ex
              /\ is_exception ex = true)
  \/ (exists response, on_complete e (length (trace st)) request = Ok response
                       /\ parse_questions response = []) ->
  (get_dynamic_questions e business_type st).1
  = Ok [ "What specific services do you need?";
         "When do you need this service?";
         "Do you have any specific requirements or preferences?";
         "What is your budget range?";
         "Is there anything else the business should know?" ].
Proof.
  cbv zeta.
  unfold get_dynamic_questions, try_except, bind, run_with_text, complete, remote.
  intros [(ex & -> & Hex) | (response & -> & Hparse)].
  - by rewrite Hex.
  - unfold ret. by rewrite Hparse.
Qed.

Lemma questions_fallback_witness :
  (get_dynamic_questions quiet_env "dentist" initial_state).1
  = Ok fallback_questions.
Proof.
  apply (questions_fallback quiet_env "dentist" initial_state).
  left. by exists (Error "service unavailable").
Defined.

(** ** The [get] dialog and the session map *)

Lemma dict_set_in (d : Py.dict) q v : (q, v) ∈ Py.dict_set d q v.
Proof.
  induction d as [|[k' v'] d IH]; simpl; [by left|].
  destruct (String.eqb_spec k' q) as [-> | _]; [by left | by right].
Qed.

Lemma dict_set_keeps (d : Py.dict) q v q' a :
  (q', a) ∈ d -> exists a', (q', a') ∈ Py.dict_set d q v.
Proof.
  induction d as [|[k' v'] d IH]; simpl; [by intros ?%elem_of_nil|].
  intros [[= <- <-] | Hin]%elem_of_cons.
  - destruct (String.eqb_spec q' q) as [-> | _]; eexists; by left.
  - destruct (String.eqb k' q); [exists a; by right|].
    destruct (IH Hin) as [a' Ha']. exists a'. by right.
Qed.

Lemma answered_calls_nil e n0 : answered_calls e n0 [].
Proof. by intros k c ?. Qed.

Lemma answered_calls_cons e n0 c calls :
  answered e n0 c -> answered_calls e (S n0) calls ->
  answered_calls e n0 (c :: calls).
Proof.
  intros Hc Hcalls [|k] c'; simpl.
  - intros [= <-]. by rewrite Nat.add_0_r.
  - intros Hk. replace (n0 + S k) with (S n0 + k) by lia. by apply Hcalls.
Qed.

Lemma answered_calls_app e n0 cs1 cs2 :
  answered_calls e n0 cs1 -> answered_calls e (n0 + length cs1) cs2 ->
  answered_calls e n0 (cs1 ++ cs2).
Proof.
  revert n0. induction cs1 as [|c cs1 IH]; intros n0 H1 H2; simpl in *.
  - by rewrite Nat.add_0_r in H2.
  - apply answered_calls_cons.
    + specialize (H1 0 c eq_refl). by rewrite Nat.add_0_r in H1.
    + apply IH.
      * intros k c' Hk. specialize (H1 (S k) c' Hk).
        by replace (S n0 + k) with (n0 + S k) by lia.
      * by replace (S n0 + length cs1) with (n0 + S (length cs1)) by lia.
Qed.

Section Steps.

Variable e : env.
Context {B : Type}.

Lemma bind_send text (k : unit -> M B) st :
  bind (send e text) k st
  = match on_send e (length (trace st)) text with
    | Ok u => k u (record_call (Send text) st)
    | Raise ex => (Raise ex, record_call (Send text) st)
    end.
Proof. reflexivity. Qed.

Lemma bind_wait_for t (k : string -> M B) st :
  bind (wait_for e t) k st
  = match on_wait_for e (length (trace st)) with
    | Ok reply => k reply (record_call (WaitFor t) st)
    | Raise ex => (Raise ex, record_call (WaitFor t) st)
    end.
Proof. reflexivity. Qed.

Lemma length_trace_record c st :
  length (trace (record_call c st)) = S (length (trace st)).
Proof. simpl. rewrite length_app. simpl. lia. Qed.

End Steps.

(** The question generator makes the one completion call and, unless that
    call is interrupted, returns a list of questions. *)
Lemma get_dynamic_questions_runs e business_type st :
  let request := [system_turn; Turn "user" (questions_prompt business_type)] in
  (get_dynamic_questions e business_type st).2 = record_call (Complete request) st
  /\ ((exists questions,
         (get_dynamic_questions e business_type st).1 = Ok questions)
      \/ exists ex, (get_dynamic_questions e business_type st).1 = Raise ex).
Proof.
  unfold get_dynamic_questions, try_except, bind, run_with_text, complete, remote.
  destruct (on_complete e _ _) as [response|ex]; simpl.
  - split; [done|]. left. by eexists.
  - destruct (is_exception ex); simpl; split; try done.
    + left. by eexists.
    + right. by eexists.
Qed.

(** One turn of the question loop. *)
Lemma ask_questions_cons e total i question rest answers st :
  let st1 := record_call (Send (question_prompt total i question)) st in
  let st2 := record_call (WaitFor 60) st1 in
  let st3 := record_call (Send too_long_message) st2 in
  ask_questions e total i (question :: rest) answers st
  = match on_send e (length (trace st)) (question_prompt total i question) with
    | Raise ex => (Raise ex, st1)
    | Ok _ =>
        match on_wait_for e (length (trace st1)) with
        | Ok reply =>
            ask_questions e total (S i) rest
              (Py.dict_set answers question (Py.strip reply)) st2
        | Raise TimeoutError =>
            match on_send e (length (trace st2)) too_long_message with
            | Ok _ => (Ok None, st3)
            | Raise ex => (Raise ex, st3)
            end
        | Raise ex => (Raise ex, st2)
        end
    end.
Proof.
  cbv zeta. cbn [ask_questions].
  unfold bind, send, wait_for, try_except_timeout, remote, ret.
  destruct (on_send e (length (trace st)) _) as [[]|ex]; [|done].
  destruct (on_wait_for e _) as [reply|[| |]]; try done.
  by destruct (on_send e _ too_long_message) as [[]|ex].
Qed.

(** The question loop never touches the session map, and when it hands
    back the answers every question was sent and answered. *)
Lemma ask_questions_outcome e total questions : forall i answers st,
  user_context (ask_questions e total i questions answers st).2 = user_context st
  /\ forall collected,
       (ask_questions e total i questions answers st).1 = Ok (Some collected) ->
       trace (ask_questions e total i questions answers st).2
       = trace st ++ question_calls total i questions
       /\ answered_calls e (length (trace st)) (question_calls total i questions)
       /\ (forall q, q ∈ questions -> exists a, (q, a) ∈ collected)
       /\ (forall q a, (q, a) ∈ answers -> exists a', (q, a') ∈ collected).
Proof.
  induction questions as [|question rest IH]; intros i answers st.
  - simpl. split; [done|]. intros collected [= <-]. repeat split.
    + by rewrite app_nil_r.
    + apply answered_calls_nil.
    + by intros q ?%elem_of_nil.
    + intros q a Hin. by exists a.
  - rewrite ask_questions_cons. cbn [question_calls].
    destruct (on_send e (length (trace st)) _) as [[]|ex] eqn:Hsend;
      [|by split].
    destruct (on_wait_for e _) as [reply|[| |]] eqn:Hwait; try (by split).
    + specialize (IH (S i) (Py.dict_set answers question (Py.strip reply))
                     (record_call (WaitFor 60)
                        (record_call (Send (question_prompt total i question)) st))).
      destruct IH as [Hctx IH]. split; [by rewrite Hctx|].
      intros collected Hres. destruct (IH collected Hres) as (Ht & Ha & Hq & Hk).
      rewrite length_trace_record in Hwait.
      repeat split.
      * rewrite Ht. simpl. by rewrite <- !app_assoc.
      * apply answered_calls_cons; [done|].
        apply answered_calls_cons; [by exists reply|].
        by rewrite !length_trace_record in Ha.
      * intros q [-> | Hin]%elem_of_cons; [|by apply Hq].
        apply (Hk question (Py.strip reply)), dict_set_in.
      * intros q a Hin.
        destruct (dict_set_keeps answers question (Py.strip reply) q a Hin)
          as [a' Ha'].
        by apply (Hk q a').
    + by destruct (on_send e _ too_long_message) as [[]|ex].
Qed.

(** What a run of the dialog leaves behind: the session map as it was,
    or the session of a completed dialog. *)
Lemma get_dialog_outcome e author st :
  user_context (get_dialog e author st).2 = user_context st
  \/ exists s calls,
       (get_dialog e author st).1 = Ok tt
       /\ user_context (get_dialog e author st).2
          = <[author := s]> (user_context st)
       /\ trace (get_dialog e author st).2 = trace st ++ calls
       /\ completed_dialog e (length (trace st)) calls s.
Proof.
  destruct (get_dialog e author st) as [r st'] eqn:Hrun. simpl.
  unfold get_dialog in Hrun. rewrite bind_send in Hrun.
  destruct (on_send e (length (trace st)) type_prompt) as [[]|ex1] eqn:Hs1;
    [|by injection Hrun as <- <-; left].
  rewrite bind_wait_for, length_trace_record in Hrun.
  destruct (on_wait_for e (S (length (trace st)))) as [type_reply|ex2] eqn:Hw1;
    [|by injection Hrun as <- <-; left].
  cbv zeta in Hrun.
  destruct (Py.len (Py.strip type_reply) <? 2) eqn:Hlen;
    [by injection Hrun as <- <-; left|].
  rewrite bind_send, !length_trace_record in Hrun.
  destruct (on_send e _ zip_prompt) as [[]|ex3] eqn:Hs2;
    [|by injection Hrun as <- <-; left].
  rewrite bind_wait_for, !length_trace_record in Hrun.
  destruct (on_wait_for e (S (S (S (length (trace st))))))
    as [zip_reply|ex4] eqn:Hw2; [|by injection Hrun as <- <-; left].
  destruct (Re.matches Re.zip_pattern (Py.strip zip_reply)) eqn:Hzip;
    [|by injection Hrun as <- <-; left].
  cbn [negb] in Hrun. rewrite bind_send, !length_trace_record in Hrun.
  destruct (on_send e _ generating_message) as [[]|ex5] eqn:Hs3;
    [|by injection Hrun as <- <-; left].
  unfold bind at 1 in Hrun.
  match type of Hrun with
  | context [get_dynamic_questions e ?bt ?s] =>
      destruct (get_dynamic_questions_runs e bt s) as [Hst5 Hres];
      destruct (get_dynamic_questions e bt s) as [res st5]
  end.
  simpl in Hst5, Hres. subst st5.
  destruct Hres as [[questions ->] | [ex6 ->]];
    [|by injection Hrun as <- <-; left].
  unfold bind at 1 in Hrun.
  match type of Hrun with
  | context [ask_questions e ?t ?i ?qs ?a ?s] =>
      destruct (ask_questions_outcome e t qs i a s) as [Hctx Hasked];
      destruct (ask_questions e t i qs a s) as [[[collected|]|ex7] st6]
  end; simpl in Hctx; [|by injection Hrun as <- <-; left..].
  destruct (Hasked collected eq_refl) as (Ht & Ha & Hq & _).
  simpl in Ht. rewrite bind_send in Hrun.
  destruct (on_send e _ collected_message) as [[]|ex8] eqn:Hs4;
    [|by injection Hrun as <- <-; left].
  injection Hrun as <- <-. right.
  exists (Session (Py.strip type_reply) (Py.strip zip_reply) collected),
         (dialog_calls (Py.strip type_reply) questions).
  split; [done|]. split; [by simpl; rewrite Hctx|]. split.
  { simpl. rewrite Ht. unfold dialog_calls. by rewrite <- !app_assoc. }
  exists questions, type_reply, zip_reply. simpl.
  split; [done|]. split; [|repeat split].
  - unfold dialog_calls.
    apply answered_calls_cons; [done|].
    apply answered_calls_cons; [by eexists|].
    apply answered_calls_cons; [done|].
    apply answered_calls_cons; [by eexists|].
    apply answered_calls_cons; [done|].
    apply answered_calls_cons; [done|].
    apply answered_calls_app.
    + by rewrite !length_trace_record in Ha.
    + apply answered_calls_cons; [|apply answered_calls_nil].
      simpl. rewrite Ht, !length_app in Hs4. simpl in Hs4.
      rewrite <- Hs4. f_equal. lia.
  - by rewrite Nat.add_1_r.
  - apply Nat.ltb_ge in Hlen. done.
  - by replace (length (trace st) + 3) with (S (S (S (length (trace st))))) by lia.
  - by rewrite <- zip_pattern_on_stripped.
  - done.
Qed.

Lemma get_unchanged_or_completed e author st :
  let st' := (get e author st).2 in
  user_context st' = user_context st
  \/ exists s calls,
       user_context st' = <[author := s]> (user_context st)
       /\ trace st' = trace st ++ calls
       /\ completed_dialog e (length (trace st)) calls s.
Proof.
  cbv zeta. unfold get, bind, modify, try_finally, try_except.
  destruct (get_dialog_outcome e author (set_interactive true st))
    as [Hsame | (s & calls & Hok & Hctx & Htrace & Hdone)].
  - left.
    destruct (get_dialog e author (set_interactive true st)) as [[[]|ex] st1];
      simpl in *; [done|].
    by destruct (is_exception ex).
  - right. exists s, calls.
    destruct (get_dialog e author (set_interactive true st)) as [r st1].
    simpl in *. subst r. simpl. done.
Qed.

(** C10.  After a run of [get] the session map is either what it was
    before the run (so an earlier session of the user is intact and no
    partial answers are stored) or it holds, under the user's id, the
    session of a dialog that ran to its end, with an answer to every
    follow-up question.  In particular the map is unchanged when a call of
    the run was refused (a wait that timed out, a send that raised an
    error), when the business type has fewer than two characters after
    stripping, and when the zipcode is not five digits. *)
Theorem get_writes_session_only_on_completion e author st :
  let st' := (get e author st).2 in
  let n0 := length (trace st) in
  (user_context st' = user_context st
   \/ exists s calls,
        user_context st' = <[author := s]> (user_context st)
        /\ trace st' = trace st ++ calls
        /\ completed_dialog e n0 calls s)
  /\ (forall k c,
        trace st' !! (n0 + k) = Some c -> ~ answered e (n0 + k) c ->
        user_context st' = user_context st)
  /\ (forall reply,
        on_wait_for e (n0 + 1) = Ok reply -> Py.len (Py.strip reply) < 2 ->
        user_context st' = user_context st)
  /\ (forall reply,
        on_wait_for e (n0 + 3) = Ok reply -> five_digits (Py.strip reply) = false ->
        user_context st' = user_context st).
Proof.
  cbv zeta.
  pose proof (get_unchanged_or_completed e author st) as Hrun.
  cbv zeta in Hrun. split; [done|].
  destruct Hrun as [Hsame | (s & calls & Hctx & Htrace & Hdone)]; [done|].
  destruct Hdone as (questions & type_reply & zip_reply & _ & Hanswered
                     & Htype & Hbt & Hlen & Hzip & Hz & Hfive & _).
  split; [|split].
  - intros k c Hk Hrefused. exfalso. apply Hrefused, Hanswered.
    rewrite Htrace, lookup_app_r in Hk by lia.
    by replace (length (trace st) + k - length (trace st)) with k in Hk by lia.
  - intros reply Hreply Hshort. rewrite Htype in Hreply.
    injection Hreply as <-. rewrite Hbt in Hlen. lia.
  - intros reply Hreply Hbad. rewrite Hzip in Hreply.
    injection Hreply as <-. congruence.
Qed.

(** A timeout on the second follow-up question: the earlier session of
    the user is still the one stored. *)
Lemma get_writes_session_only_on_completion_witness :
  user_context (get impatient_env 7 state_with_session).2
  = user_context state_with_session.
Proof.
  destruct (get_writes_session_only_on_completion impatient_env 7
              state_with_session) as (_ & Hrefused & _).
  apply (Hrefused 9 (WaitFor 60)).
  - vm_compute. reflexivity.
  - intros [reply Hreply]. discriminate.
Defined.

(** The dialog of the specification's example: "dentist", "94107" and an
    answer to each question store the session, and the flag is clear. *)
Lemma get_completes_example :
  user_context (get dentist_env 7 initial_state).2 !! 7%Z
  = Some (Session "dentist" "94107"
            [ ("When do you need the appointment?", "as soon as possible");
              ("Is it an emergency?", "as soon as possible") ])
  /\ interactive_session_active (get dentist_env 7 initial_state).2 = false
  /\ trace (get dentist_env 7 initial_state).2
     = dialog_calls "dentist"
         ["When do you need the appointment?"; "Is it an emergency?"].
Proof. repeat split; vm_compute; reflexivity. Qed.

(** ** What the handlers catch *)

Section ExceptionsOnly.

Context {A B : Type}.

Lemma reo_ret (a : A) : raises_exceptions_only (ret a).
Proof. by intros st. Qed.

Lemma reo_read (f : state -> A) : raises_exceptions_only (read f).
Proof. by intros st. Qed.

Lemma reo_modify f : raises_exceptions_only (modify f).
Proof. by intros st. Qed.

Lemma reo_raise_error w : raises_exceptions_only (@raise A (Error w)).
Proof. by intros st. Qed.

Lemma reo_lift (o : outcome A) :
  fails_with_exception o -> raises_exceptions_only (lift o).
Proof. by intros Ho st. Qed.

Lemma reo_remote c (answer : nat -> outcome A) :
  (forall n, fails_with_exception (answer n)) ->
  raises_exceptions_only (remote c answer).
Proof. intros Ha st. apply Ha. Qed.

Lemma reo_bind (m : M A) (k : A -> M B) :
  raises_exceptions_only m -> (forall a, raises_exceptions_only (k a)) ->
  raises_exceptions_only (bind m k).
Proof.
  intros Hm Hk st. unfold bind. specialize (Hm st).
  destruct (m st) as [[a|ex] st']; [apply Hk | done].
Qed.

Lemma reo_try_except (body : M A) handler :
  raises_exceptions_only body ->
  (forall ex, raises_exceptions_only (handler ex)) ->
  raises_exceptions_only (try_except body handler).
Proof.
  intros Hb Hh st. unfold try_except. specialize (Hb st).
  destruct (body st) as [[a|ex] st']; [done|]. simpl in Hb. rewrite Hb.
  apply Hh.
Qed.

Lemma reo_try_except_timeout (body handler : M A) :
  raises_exceptions_only body -> raises_exceptions_only handler ->
  raises_exceptions_only (try_except_timeout body handler).
Proof.
  intros Hb Hh st. unfold try_except_timeout. specialize (Hb st).
  destruct (body st) as [[a|[| |]] st']; simpl in *;
    [done | apply Hh | done | done].
Qed.

Lemma reo_try_finally (body : M A) fin :
  raises_exceptions_only body -> raises_exceptions_only fin ->
  raises_exceptions_only (try_finally body fin).
Proof.
  intros Hb Hf st. unfold try_finally. specialize (Hb st).
  destruct (body st) as [r st']. specialize (Hf st').
  by destruct (fin st') as [[[]|ex] st''].
Qed.

(** A handler that returns turns a body that raises only [Exception]s
    into a computation that always returns. *)
Lemma never_raises_try_except (body : M A) handler :
  raises_exceptions_only body ->
  (forall ex, never_raises (handler ex)) ->
  never_raises (try_except body handler).
Proof.
  intros Hb Hh st. unfold try_except. specialize (Hb st).
  destruct (body st) as [[a|ex] st']; [by exists a|]. simpl in Hb.
  rewrite Hb. apply Hh.
Qed.

Lemma never_raises_ret (a : A) : never_raises (ret a).
Proof. intros st. by exists a. Qed.

Lemma never_raises_reo (m : M A) : never_raises m -> raises_exceptions_only m.
Proof. intros Hm st. destruct (Hm st) as [a Ha]. by rewrite Ha. Qed.

End ExceptionsOnly.

Ltac reo_step :=
  first
    [ apply reo_ret | apply reo_read | apply reo_modify | apply reo_raise_error
    | apply reo_bind | apply reo_try_except | apply reo_try_except_timeout
    | apply reo_try_finally
    | progress intros
    | match goal with
      | |- raises_exceptions_only (match ?x with _ => _ end) => destruct x
      | |- raises_exceptions_only (if ?x then _ else _) => destruct x
      end ].

Section OrdinaryFailures.

Variable e : env.
Hypothesis ordinary : ordinary_failures e.

Lemma send_reo text : raises_exceptions_only (send e text).
Proof. apply reo_remote. intros n. apply ordinary. Qed.

Lemma delete_reo : raises_exceptions_only (delete e).
Proof. apply reo_remote. intros n. apply ordinary. Qed.

Lemma wait_for_reo t : raises_exceptions_only (wait_for e t).
Proof. apply reo_remote. intros n. apply ordinary. Qed.

Lemma history_reo n : raises_exceptions_only (history e n).
Proof.
  unfold history. apply reo_bind; [|intros; apply reo_ret].
  apply reo_remote. intros k. apply ordinary.
Qed.

Lemma complete_reo messages : raises_exceptions_only (complete e messages).
Proof. apply reo_remote. intros n. apply ordinary. Qed.

Lemma business_query_reo id : raises_exceptions_only (business_query e id).
Proof. apply reo_remote. intros n. apply ordinary. Qed.

Lemma search_query_reo term z : raises_exceptions_only (search_query e term z).
Proof. apply reo_remote. intros n. apply ordinary. Qed.

Lemma send_each_reo pieces : raises_exceptions_only (send_each e pieces).
Proof.
  induction pieces as [|p pieces IH]; simpl; [apply reo_ret|].
  apply reo_bind; [apply send_reo | done].
Qed.

Lemma each_business_never_raises bs i results :
  never_raises (each_business e i bs results).
Proof.
  revert i results. induction bs as [|b bs IH]; intros i results st; simpl.
  - by eexists.
  - unfold bind.
    destruct (never_raises_try_except
                (do d <- business_query e (biz_id b);
                 match render_detailed (weekday e) i b d with
                 | Some block => ret (results ++ [block])
                 | None => raise (Error "invalid literal for int() with base 10")
                 end)
                (fun _ => ret (results ++ [render_fallback i b]))) with
      (st := st) as [r Hr].
    + apply reo_bind; [apply business_query_reo|].
      intros d. destruct (render_detailed _ _ _ _);
        [apply reo_ret | apply reo_raise_error].
    + intros ex. apply never_raises_ret.
    + destruct (try_except _ _ st) as [o st']. simpl in Hr. subst o.
      apply IH.
Qed.

Lemma yelp_search_never_raises term z : never_raises (yelp_search e term z).
Proof.
  unfold yelp_search. destruct (negb _); [apply never_raises_ret|].
  apply never_raises_try_except; [|intros; apply never_raises_ret].
  apply reo_bind; [apply search_query_reo|].
  intros [[|b bs]|]; try apply reo_ret.
  apply reo_bind; [|intros; apply reo_ret].
  apply never_raises_reo, each_business_never_raises.
Qed.

Lemma get_dynamic_questions_never_raises business_type :
  never_raises (get_dynamic_questions e business_type).
Proof.
  unfold get_dynamic_questions.
  apply never_raises_try_except; [|intros; apply never_raises_ret].
  apply reo_bind; [apply complete_reo | intros; apply reo_ret].
Qed.

Lemma draft_dynamic_message_never_raises business_type answers :
  never_raises (draft_dynamic_message e business_type answers).
Proof.
  unfold draft_dynamic_message.
  apply never_raises_try_except; [|intros; apply never_raises_ret].
  apply reo_bind; [apply complete_reo | intros; apply reo_ret].
Qed.

Lemma ask_questions_reo total questions i answers :
  raises_exceptions_only (ask_questions e total i questions answers).
Proof.
  revert i answers. induction questions as [|q rest IH]; intros i answers;
    simpl; [apply reo_ret|].
  repeat first
    [ apply send_reo | apply wait_for_reo | apply IH | reo_step ].
Qed.

Lemma get_dialog_reo author : raises_exceptions_only (get_dialog e author).
Proof.
  unfold get_dialog.
  repeat first
    [ apply send_reo | apply wait_for_reo | apply ask_questions_reo
    | apply never_raises_reo, get_dynamic_questions_never_raises
    | reo_step ].
Qed.

End OrdinaryFailures.

(** ** The search, call by call *)

Lemma record_calls_cons c cs st :
  record_calls cs (record_call c st) = record_calls (c :: cs) st.
Proof. unfold record_calls, record_call. simpl. by rewrite <- app_assoc. Qed.

Lemma record_calls_one c st : record_call c st = record_calls [c] st.
Proof. reflexivity. Qed.

Lemma record_calls_app cs1 cs2 st :
  record_calls cs2 (record_calls cs1 st) = record_calls (cs1 ++ cs2) st.
Proof. unfold record_calls. simpl. by rewrite <- app_assoc. Qed.

Lemma record_calls_nil st : record_calls [] st = st.
Proof. unfold record_calls. rewrite app_nil_r. by destruct st. Qed.

(** With an accepted zipcode the search returns; it has made the search
    query and one detail lookup for each business it returns. *)
Lemma yelp_search_runs e term z st :
  ordinary_failures e ->
  Re.matches Re.zip_pattern z = true ->
  exists text bs,
    yelp_search e term z st
    = (Ok (text, bs),
       record_calls (SearchQuery term z
                       :: ((fun b => BusinessQuery (biz_id b)) <$> bs)) st).
Proof.
  intros Hord Hz. unfold yelp_search. rewrite Hz. cbn [negb].
  unfold try_except, bind at 1, search_query, remote.
  destruct (on_search_query e (length (trace st)) term z)
    as [[[|b bs]|]|ex] eqn:Hq.
  - by eexists _, [].
  - unfold bind. rewrite each_business_blocks.
    + eexists _, (b :: bs). unfold ret. by rewrite record_calls_cons.
    + intros k x ex _ Hx.
      destruct Hord as (_ & _ & _ & _ & _ & _ & Hbq).
      specialize (Hbq (length (trace (record_call (SearchQuery term z) st)) + k)
                      (biz_id x)).
      by rewrite Hx in Hbq.
  - by eexists _, [].
  - destruct Hord as (_ & _ & _ & _ & _ & Hsq & _).
    specialize (Hsq (length (trace st)) term z). rewrite Hq in Hsq.
    simpl in Hsq. rewrite Hsq. by eexists _, [].
Qed.

(** X1.  Whatever an accepted zipcode's search meets (no result, a failed
    query, failed detail lookups), [yelp_search] returns a text and a
    list, and the calls it has made are the search query followed by one
    detail lookup per returned business, in the order of the list, and
    nothing else.  Failures are taken to be [Exception]s. *)
Theorem yelp_search_one_lookup_per_business e term z st :
  ordinary_failures e ->
  Re.matches Re.zip_pattern z = true ->
  exists text bs,
    (yelp_search e term z st).1 = Ok (text, bs)
    /\ trace (yelp_search e term z st).2
       = trace st ++ SearchQuery term z
                       :: ((fun b => BusinessQuery (biz_id b)) <$> bs).
Proof.
  intros Hord Hz.
  destruct (yelp_search_runs e term z st Hord Hz) as (text & bs & ->).
  by exists text, bs.
Qed.

Lemma search_env_ordinary : ordinary_failures search_env.
Proof.
  repeat split; intros; simpl; try done.
  by destruct (String.eqb _ _).
Qed.

Lemma yelp_search_one_lookup_per_business_witness :
  exists text bs,
    (yelp_search search_env "pizza" "94107" initial_state).1 = Ok (text, bs)
    /\ trace (yelp_search search_env "pizza" "94107" initial_state).2
       = trace initial_state
         ++ SearchQuery "pizza" "94107"
              :: ((fun b => BusinessQuery (biz_id b)) <$> bs).
Proof.
  apply (yelp_search_one_lookup_per_business search_env "pizza" "94107"
           initial_state).
  - apply search_env_ordinary.
  - reflexivity.
Defined.

(** X2.  The two ways the search comes back empty-handed.  When the
    query finds no business (no list, or an empty one) the text is the
    line "No results found for '<term>' in zipcode <zipcode>.", which
    holds the term and the zipcode; when the query raises an exception
    the text is "Error searching Yelp: " followed by the exception's
    text.  In both cases the list is empty and the query is the only
    call. *)
Theorem yelp_search_empty_handed e term z st :
  Re.matches Re.zip_pattern z = true ->
  (on_search_query e (length (trace st)) term z = Ok None
   \/ on_search_query e (length (trace st)) term z = Ok (Some []) ->
   yelp_search e term z st
   = (Ok (no_results_message term z, []), record_call (SearchQuery term z) st)
   /\ Py.contains term (no_results_message term z) = true
   /\ Py.contains z (no_results_message term z) = true)
  /\ (forall ex,
        on_search_query e (length (trace st)) term z = Raise ex ->
        is_exception ex = true ->
        yelp_search e term z st
        = (Ok ("Error searching Yelp: " +:+ exn_str ex, []),
           record_call (SearchQuery term z) st)).
Proof.
  intros Hz. unfold yelp_search. rewrite Hz. cbn [negb].
  unfold try_except, bind, search_query, remote. split.
  - intros Hq. split; [by destruct Hq as [-> | ->]|].
    unfold no_results_message. split.
    + apply (contains_append term "No results found for '").
    + rewrite <- (append_assoc "No results found for '" term).
      rewrite <- (append_assoc ("No results found for '" +:+ term)
                               "' in zipcode ").
      apply (contains_append z
               (("No results found for '" +:+ term) +:+ "' in zipcode ")).
  - intros ex -> Hex. by rewrite Hex.
Qed.

Lemma yelp_search_empty_handed_witness :
  yelp_search empty_search_env "sushi" "00000" initial_state
  = (Ok (no_results_message "sushi" "00000", []),
     record_call (SearchQuery "sushi" "00000") initial_state)
  /\ yelp_search quiet_env "sushi" "00000" initial_state
     = (Ok ("Error searching Yelp: service unavailable", []),
        record_call (SearchQuery "sushi" "00000") initial_state).
Proof.
  destruct (yelp_search_empty_handed empty_search_env "sushi" "00000"
              initial_state eq_refl) as [Hnone _].
  destruct (yelp_search_empty_handed quiet_env "sushi" "00000"
              initial_state eq_refl) as [_ Hfail].
  split.
  - apply Hnone. by right.
  - apply (Hfail (Error "service unavailable")); reflexivity.
Defined.

(** ** Commands with and without a handler *)

Section Boundary.

Variable e : env.
Hypothesis ordinary : ordinary_failures e.
Hypothesis delivered : sends_succeed e.

Lemma try_except_apology (body : M unit) text st :
  raises_exceptions_only body ->
  (try_except body (fun _ => send e text) st).1 = Ok tt.
Proof.
  intros Hb. unfold try_except. specialize (Hb st).
  destruct (body st) as [[[]|ex] st']; [done|]. simpl in Hb. rewrite Hb.
  apply delivered.
Qed.

Lemma search_returns term z st : (search e term z st).1 = Ok tt.
Proof.
  apply try_except_apology.
  repeat first
    [ apply send_reo | apply delete_reo | apply send_each_reo
    | apply never_raises_reo, yelp_search_never_raises
    | reo_step ]; done.
Qed.

Lemma ask_returns arg st : (ask e arg st).1 = Ok tt.
Proof.
  destruct arg as [arg|]; simpl; [|apply delivered].
  apply try_except_apology.
  apply reo_bind; [by apply complete_reo | intros; by apply send_reo].
Qed.

Lemma message_business_returns n m st : (message_business e n m st).1 = Ok tt.
Proof.
  apply try_except_apology. unfold send_long_message.
  repeat first
    [ apply send_reo | apply history_reo | apply send_each_reo
    | reo_step ]; done.
Qed.

Lemma get_returns author st : (get e author st).1 = Ok tt.
Proof.
  unfold get, bind, modify, try_finally.
  pose proof (try_except_apology (get_dialog e author)
                "Sorry, I encountered an error while processing your request."
                (set_interactive true st) (get_dialog_reo e ordinary author))
    as Hbody.
  destruct (try_except _ _ _) as [r st']. simpl in *. by subst r.
Qed.

End Boundary.

(** X3.  [search], [ask], [message], [send-message] and [get] return
    normally whatever fails inside them: when every failure of the
    environment is an [Exception] and the chat platform delivers the
    bot's messages, none of these commands raises. *)
Theorem commands_catch_exceptions e author st :
  ordinary_failures e ->
  sends_succeed e ->
  (forall term z, (search e term z st).1 = Ok tt)
  /\ (forall arg, (ask e arg st).1 = Ok tt)
  /\ (forall n m, (message_business e n m st).1 = Ok tt)
  /\ (forall n, (send_message e n st).1 = Ok tt)
  /\ (get e author st).1 = Ok tt.
Proof.
  intros Hord Hsend. repeat split; intros.
  - by apply search_returns.
  - by apply ask_returns.
  - by apply message_business_returns.
  - by apply message_business_returns.
  - by apply get_returns.
Qed.

Lemma quiet_env_ordinary : ordinary_failures quiet_env.
Proof. repeat split; intros; done. Qed.

Lemma commands_catch_exceptions_witness :
  (search quiet_env "pizza" "94107" initial_state).1 = Ok tt
  /\ (get quiet_env 7 initial_state).1 = Ok tt.
Proof.
  destruct (commands_catch_exceptions quiet_env 7 initial_state)
    as (Hsearch & _ & _ & _ & Hget).
  - apply quiet_env_ordinary.
  - by intros n text.
  - split; [apply Hsearch | apply Hget].
Defined.

(** What [list] has done when it reaches the deletion of its status
    message. *)
Lemma list_businesses_delete_refused e author st s ex :
  user_context st !! author = Some s ->
  ordinary_failures e ->
  on_send e (length (trace st)) (list_status s) = Ok tt ->
  (forall n, on_delete e n = Raise ex) ->
  exists lookups,
    list_businesses e author st
    = (Raise ex,
       record_calls (Send (list_status s) :: lookups ++ [Delete]) st)
    /\ Forall (fun c => is_api_call c = true) lookups.
Proof.
  intros Hs Hord Hsent Hdel.
  unfold list_businesses. unfold bind at 1, read. rewrite Hs.
  rewrite bind_send. fold (list_status s). rewrite Hsent.
  unfold bind at 1.
  destruct (Re.matches Re.zip_pattern (zipcode s)) eqn:Hz.
  - destruct (yelp_search_runs e (business_type s) (zipcode s)
                (record_call (Send (list_status s)) st) Hord Hz)
      as (text & bs & ->).
    unfold bind at 1, delete, remote. rewrite Hdel.
    eexists. split.
    + rewrite (record_calls_one Delete), record_calls_app, record_calls_cons.
      reflexivity.
    + constructor; [done|]. apply Forall_fmap, Forall_true. done.
  - rewrite yelp_search_rejects by done.
    unfold bind at 1, delete, remote. rewrite Hdel.
    exists []. split; [|done].
    by rewrite (record_calls_one Delete), record_calls_cons.
Qed.

(** X4.  [list] has no handler of its own.  When the user has a session
    and the status message was sent, a refusal to delete that message
    stops the command with the exception: the search has been made, and
    nothing of the listing has been sent. *)
Theorem list_businesses_propagates e author st s ex :
  user_context st !! author = Some s ->
  ordinary_failures e ->
  on_send e (length (trace st)) (list_status s) = Ok tt ->
  (forall n, on_delete e n = Raise ex) ->
  (list_businesses e author st).1 = Raise ex
  /\ exists lookups,
       trace (list_businesses e author st).2
       = trace st ++ Send (list_status s) :: lookups ++ [Delete]
       /\ Forall (fun c => is_api_call c = true) lookups.
Proof.
  intros Hs Hord Hsent Hdel.
  destruct (list_businesses_delete_refused e author st s ex Hs Hord Hsent Hdel)
    as (lookups & -> & Hlookups).
  split; [done|]. by exists lookups.
Qed.

Lemma no_delete_env_ordinary : ordinary_failures no_delete_env.
Proof.
  repeat split; intros; simpl; try done.
  by destruct (String.eqb _ _).
Qed.

Lemma list_businesses_propagates_witness :
  (list_businesses no_delete_env 7 state_with_session).1
  = Raise (Error "Forbidden").
Proof.
  apply (list_businesses_propagates no_delete_env 7 state_with_session
           earlier_session (Error "Forbidden")).
  - reflexivity.
  - apply no_delete_env_ordinary.
  - reflexivity.
  - reflexivity.
Defined.

(** ** The zipcode check and the opening hours *)



Lemma digit_cases c :
  Py.is_digit c = true ->
  c ∈ ["0"; "1"; "2"; "3"; "4"; "5"; "6"; "7"; "8"; "9"]%char.
Proof.
  destruct c as [[] [] [] [] [] [] [] []]; vm_compute; intros H;
    try discriminate; set_solver.
Qed.

Lemma two_digits_round_trip a b :
  Py.is_digit a = true -> Py.is_digit b = true ->
  Py.format_02d <$> Py.int (String a (String b "")) = Some (String a (String b "")).
Proof.
  intros Ha%digit_cases Hb%digit_cases.
  repeat match goal with
         | H : _ ∈ _ :: _ |- _ => apply elem_of_cons in H as [-> | H]
         | H : _ ∈ [] |- _ => by apply elem_of_nil in H
         end; vm_compute; reflexivity.
Qed.

Lemma substring_whole s : String.substring 0 (String.length s) s = s.
Proof. induction s as [|c s IH]; simpl; [done | by rewrite IH]. Qed.

(** X6.  Opening hours given as two digits of hours followed by the
    minutes, as Yelp gives them ("0930"), are shown with a colon after
    the hours and a dash between start and end ("09:30-17:00"): the hour
    digits come back unchanged from their conversion to a number and the
    two-digit formatting. *)
Theorem hours_window_of_digits day a b minutes c d minutes' :
  Py.is_digit a = true -> Py.is_digit b = true ->
  Py.is_digit c = true -> Py.is_digit d = true ->
  hours_window (OpenSlot day (String a (String b minutes))
                             (String c (String d minutes')))
  = Some (String a (String b (":" +:+ minutes)) +:+ "-"
          +:+ String c (String d (":" +:+ minutes'))).
Proof.
  intros Ha Hb Hc Hd. unfold hours_window. cbn [slot_start slot_end].
  assert (Htwo : forall x y r,
             Py.slice 0 2 (String x (String y r)) = String x (String y "")).
  { intros x y r. unfold Py.slice. simpl. by destruct r. }
  rewrite !Htwo.
  assert (Hfrom : forall x y r, Py.slice_from 2 (String x (String y r)) = r).
  { intros x y r. unfold Py.slice_from. simpl. rewrite Nat.sub_0_r.
    apply substring_whole. }
  rewrite !Hfrom.
  pose proof (two_digits_round_trip a b Ha Hb) as Hab.
  pose proof (two_digits_round_trip c d Hc Hd) as Hcd.
  apply fmap_Some in Hab as (h1 & -> & H1).
  apply fmap_Some in Hcd as (h2 & -> & H2).
  simpl. rewrite <- H1, <- H2. reflexivity.
Qed.

Lemma hours_window_of_digits_witness :
  hours_window (OpenSlot 0 "0930" "1700") = Some "09:30-17:00".
Proof.
  apply (hours_window_of_digits 0 "0" "9" "30" "1" "7" "00"); reflexivity.
Defined.

(** X7.  A detail record that arrived but whose opening hours for today
    have a start or end time [int()] does not accept is treated like a
    failed lookup: the loop lists the business with the block built from
    its summary and goes on with the next business. *)
Theorem each_business_unreadable_hours e i b rest results st d h hs t :
  on_business_query e (length (trace st)) (biz_id b) = Ok d ->
  det_hours d = Some (h :: hs) ->
  List.find (fun t => (slot_day t =? weekday e)%Z) (default [] (hours_open h))
  = Some t ->
  Py.int (Py.slice 0 2 (slot_start t)) = None
  \/ Py.int (Py.slice 0 2 (slot_end t)) = None ->
  each_business e i (b :: rest) results st
  = each_business e (S i) rest (results ++ [render_fallback i b])
      (record_call (BusinessQuery (biz_id b)) st).
Proof.
  intros Hq Hhours Hfind Hint.
  assert (Hrender : render_detailed (weekday e) i b d = None).
  { unfold render_detailed, status_parts. rewrite Hhours, Hfind.
    assert (Hw : hours_window t = None).
    { unfold hours_window. destruct Hint as [-> | Hend]; [done|].
      rewrite Hend. by destruct (Py.int (Py.slice 0 2 (slot_start t))). }
    by rewrite Hw. }
  cbn [each_business]. unfold bind at 1, try_except, bind at 1.
  unfold business_query, remote. by rewrite Hq, Hrender.
Qed.

Lemma each_business_unreadable_hours_witness :
  each_business malformed_env 1 [first_business] [] initial_state
  = (Ok [render_fallback 1 first_business],
     record_call (BusinessQuery "joes-pizza") initial_state).
Proof.
  rewrite (each_business_unreadable_hours malformed_env 1 first_business []
             [] initial_state malformed_details
             (HoursEntry (Some true) (Some [OpenSlot 0 "" "2200"])) []
             (OpenSlot 0 "" "2200")); try reflexivity.
  by left.
Defined.

(** ** The agent's [run] *)

Lemma format_each_messages (ms : list message) (formatted : list turn) :
  format_each (Msg <$> ms) formatted = Ok (formatted ++ (turn_of <$> ms)).
Proof.
  revert formatted. induction ms as [|m ms IH]; intros formatted; simpl.
  - by rewrite app_nil_r.
  - rewrite IH. by rewrite <- app_assoc.
Qed.

Lemma format_each_dict (l : list entry) (t : turn) (formatted : list turn) :
  Dict t ∈ l ->
  format_each l formatted
  = Raise (Error "'dict' object has no attribute 'author'").
Proof.
  revert formatted. induction l as [|[m|t'] l IH]; intros formatted Hin.
  - by apply elem_of_nil in Hin.
  - apply elem_of_cons in Hin as [? | Hin]; [done|]. simpl. by apply IH.
  - done.
Qed.

Lemma last_n_fmap {A B} (f : A -> B) n (l : list A) :
  Py.last_n n (f <$> l) = f <$> Py.last_n n l.
Proof. unfold Py.last_n. by rewrite length_fmap, fmap_drop. Qed.

Lemma last_n_snoc {A} n (l : list A) x :
  0 < n -> last (Py.last_n n (l ++ [x])) = Some x.
Proof.
  intros Hn. unfold Py.last_n. rewrite length_app. simpl.
  rewrite drop_app_le by lia. apply last_snoc.
Qed.

(** [run], step by step. *)
Lemma run_unfold e channel_id m st :
  run e channel_id m st
  = match seed e channel_id st with
    | (Raise ex, st1) => (Raise ex, st1)
    | (Ok _, st1) =>
        let h := append_capped (stored_history channel_id st1) (Msg m) in
        let st2 :=
          set_channel_history (<[channel_id := h]> (channel_history st1)) st1 in
        match _format_messages h with
        | Ok request =>
            (on_complete e (length (trace st1)) request,
             record_call (Complete request) st2)
        | Raise ex => (Raise ex, st2)
        end
    end.
Proof.
  unfold run. unfold bind at 1.
  destruct (seed e channel_id st) as [[[]|ex] st1]; [|done].
  unfold bind at 1, append_message, bind at 1, read, store_history, modify.
  unfold bind at 1, read.
  cbv zeta.
  replace (stored_history channel_id
             (set_channel_history
                (<[channel_id:=append_capped (stored_history channel_id st1) (Msg m)]>
                   (channel_history st1)) st1))
    with (append_capped (stored_history channel_id st1) (Msg m))
    by (unfold stored_history at 2; simpl; by rewrite lookup_insert_eq).
  unfold bind, lift.
  by destruct (_format_messages _).
Qed.

Lemma seed_fresh e channel_id st log :
  stored_history channel_id st = [] ->
  channel_log e (length (trace st)) = Ok log ->
  seed e channel_id st
  = (Ok tt,
     set_channel_history
       (<[channel_id := Dict system_turn
                          :: (Msg <$> take MAX_HISTORY (reverse log))]>
          (channel_history st))
       (record_call (History MAX_HISTORY) st)).
Proof.
  intros Hempty Hlog. unfold seed, bind, read. rewrite Hempty.
  unfold history, bind, remote. by rewrite Hlog.
Qed.

Lemma seed_seeded e channel_id st x h :
  stored_history channel_id st = x :: h -> seed e channel_id st = (Ok tt, st).
Proof. intros Hstored. unfold seed, bind, read. by rewrite Hstored. Qed.

Lemma stored_history_insert channel_id h hs st :
  stored_history channel_id
    (set_channel_history (<[channel_id := h]> hs) st) = h.
Proof. unfold stored_history. simpl. by rewrite lookup_insert_eq. Qed.

(** The three ways a run of [run] goes, by what the buffer holds. *)
Lemma run_fresh e channel_id m st log :
  stored_history channel_id st = [] ->
  channel_log e (length (trace st)) = Ok log ->
  length log <= 28 ->
  run e channel_id m st
  = (Raise (Error "'dict' object has no attribute 'author'"),
     set_channel_history
       (<[channel_id := Dict system_turn :: (Msg <$> reverse log) ++ [Msg m]]>
          (channel_history st))
       (record_call (History 30) st)).
Proof.
  intros Hempty Hlog Hlen.
  rewrite run_unfold, (seed_fresh e channel_id st log) by done.
  cbv zeta. rewrite stored_history_insert.
  rewrite take_ge by (rewrite length_reverse; unfold MAX_HISTORY; lia).
  assert (Hcap : append_capped (Dict system_turn :: (Msg <$> reverse log)) (Msg m)
                 = Dict system_turn :: (Msg <$> reverse log) ++ [Msg m]).
  { unfold append_capped. cbn [app].
    destruct (Nat.ltb_spec MAX_HISTORY
                (length (Dict system_turn :: (Msg <$> reverse log) ++ [Msg m])))
      as [Hlt|_]; [|done].
    simpl in Hlt. rewrite length_app, length_fmap, length_reverse in Hlt.
    simpl in Hlt. unfold MAX_HISTORY in Hlt. lia. }
  rewrite Hcap. cbn [_format_messages format_each fst snd].
  f_equal. unfold set_channel_history. simpl. f_equal.
  by rewrite insert_insert_eq.
Qed.

Lemma last_n_cons {A} n (x : A) l :
  n <= length l -> Py.last_n n (x :: l) = Py.last_n n l.
Proof.
  intros Hn. unfold Py.last_n. simpl.
  replace (S (length l) - n) with (S (length l - n)) by lia. done.
Qed.

Lemma run_busy e channel_id m st log :
  stored_history channel_id st = [] ->
  channel_log e (length (trace st)) = Ok log ->
  29 <= length log ->
  let kept := Py.last_n 30 (take 30 (reverse log) ++ [m]) in
  let request := system_turn :: (turn_of <$> kept) in
  run e channel_id m st
  = (on_complete e (S (length (trace st))) request,
     record_call (Complete request)
       (set_channel_history
          (<[channel_id := Msg <$> kept]> (channel_history st))
          (record_call (History 30) st))).
Proof.
  intros Hempty Hlog Hlen. cbv zeta.
  rewrite run_unfold, (seed_fresh e channel_id st log) by done.
  cbv zeta. rewrite stored_history_insert. change MAX_HISTORY with 30.
  assert (Hcap : append_capped
                   (Dict system_turn :: (Msg <$> take 30 (reverse log))) (Msg m)
                 = Msg <$> Py.last_n 30 (take 30 (reverse log) ++ [m])).
  { rewrite append_capped_last_n. change MAX_HISTORY with 30.
    rewrite <- last_n_fmap, fmap_app. cbn [app fmap list_fmap].
    apply last_n_cons.
    rewrite length_app, length_fmap, length_take, length_reverse.
    cbn [length]. lia. }
  rewrite Hcap. unfold _format_messages. rewrite format_each_messages.
  cbn [fst snd app]. unfold record_call, set_channel_history. simpl.
  rewrite length_app, insert_insert_eq, Nat.add_1_r. done.
Qed.

Lemma run_seeded e channel_id m st ms :
  stored_history channel_id st = Msg <$> ms ->
  ms <> [] ->
  let kept := Py.last_n 30 (ms ++ [m]) in
  let request := system_turn :: (turn_of <$> kept) in
  run e channel_id m st
  = (on_complete e (length (trace st)) request,
     record_call (Complete request)
       (set_channel_history
          (<[channel_id := Msg <$> kept]> (channel_history st)) st)).
Proof.
  intros Hstored Hne. cbv zeta.
  assert (Hcap : append_capped (Msg <$> ms) (Msg m)
                 = Msg <$> Py.last_n 30 (ms ++ [m])).
  { rewrite append_capped_last_n. change MAX_HISTORY with 30.
    by rewrite <- last_n_fmap, fmap_app. }
  rewrite run_unfold.
  destruct ms as [|m0 ms0]; [done|].
  rewrite (seed_seeded e channel_id st (Msg m0) (Msg <$> ms0)) by done.
  cbv zeta. rewrite Hstored, Hcap.
  unfold _format_messages. by rewrite format_each_messages.
Qed.

(** X8.  The first message of a channel whose buffer is empty and which
    has at most 28 earlier messages on the platform gets no answer: the
    system dict that seeding puts in front of the buffer is still there
    when the buffer is formatted, formatting raises the AttributeError,
    and no completion call is made.  The buffer keeps the dict, the
    fetched messages and the new message. *)
Theorem run_fresh_channel_raises e channel_id m st log :
  stored_history channel_id st = [] ->
  channel_log e (length (trace st)) = Ok log ->
  length log <= 28 ->
  (run e channel_id m st).1
  = Raise (Error "'dict' object has no attribute 'author'")
  /\ trace (run e channel_id m st).2 = trace st ++ [History 30]
  /\ stored_history channel_id (run e channel_id m st).2
     = Dict system_turn :: (Msg <$> reverse log) ++ [Msg m].
Proof.
  intros Hempty Hlog Hlen. rewrite (run_fresh e channel_id m st log) by done.
  split; [done|]. split; [done|]. apply stored_history_insert.
Qed.

Lemma run_fresh_channel_raises_witness :
  (run quiet_env 1 current_message initial_state).1
  = Raise (Error "'dict' object has no attribute 'author'").
Proof.
  apply (run_fresh_channel_raises quiet_env 1 current_message initial_state []).
  - reflexivity.
  - reflexivity.
  - simpl. lia.
Defined.

(** X9.  On a buffer that holds messages only, [run] makes one call: the
    completion request made of the system turn followed by one turn for
    each of the last 30 messages of the buffer with the new message
    appended, in that order, each with the role its author has ("assistant"
    for a bot, "user" otherwise); the new message is the last turn, the
    buffer now holds those messages, and [run] returns what the
    completion call gives. *)
Theorem run_request e channel_id m st ms :
  stored_history channel_id st = Msg <$> ms ->
  ms <> [] ->
  let kept := Py.last_n 30 (ms ++ [m]) in
  let request := system_turn :: (turn_of <$> kept) in
  (run e channel_id m st).1 = on_complete e (length (trace st)) request
  /\ trace (run e channel_id m st).2 = trace st ++ [Complete request]
  /\ stored_history channel_id (run e channel_id m st).2 = Msg <$> kept
  /\ last request = Some (turn_of m).
Proof.
  intros Hstored Hne. cbv zeta.
  pose proof (run_seeded e channel_id m st ms Hstored Hne) as Hrun.
  cbv zeta in Hrun. rewrite Hrun.
  split; [done|]. split; [done|]. split.
  - unfold record_call. apply stored_history_insert.
  - pose proof (last_n_snoc 30 ms m ltac:(lia)) as Hl.
    destruct (Py.last_n 30 (ms ++ [m])) as [|k ks] eqn:Hk; [done|].
    change (system_turn :: (turn_of <$> k :: ks))
      with ([system_turn] ++ (turn_of <$> k :: ks)).
    rewrite last_app, fmap_last, Hl. done.
Qed.

Lemma run_request_witness :
  (run quiet_env 1 current_message
       (set_channel_history {[ 1%Z := [Msg older_message; Msg newer_message] ]}
                            initial_state)).1
  = on_complete quiet_env 0
      [ system_turn; Turn "user" "first"; Turn "user" "second";
        Turn "user" "hello" ].
Proof.
  apply (run_request quiet_env 1 current_message
           (set_channel_history
              {[ 1%Z := [Msg older_message; Msg newer_message] ]} initial_state)
           [older_message; newer_message]).
  - reflexivity.
  - discriminate.
Defined.

(** X10.  In a channel with an empty buffer and at least 29 earlier
    messages on the platform, the first message is answered: the cap of
    30 drops the seeded system dict before the buffer is formatted, so
    the request is the system turn and one turn for each of the last 30
    of the fetched messages with the new message appended. *)
Theorem run_busy_channel_answers e channel_id m st log :
  stored_history channel_id st = [] ->
  channel_log e (length (trace st)) = Ok log ->
  29 <= length log ->
  let kept := Py.last_n 30 (take 30 (reverse log) ++ [m]) in
  let request := system_turn :: (turn_of <$> kept) in
  (run e channel_id m st).1 = on_complete e (S (length (trace st))) request
  /\ trace (run e channel_id m st).2
     = trace st ++ [History 30; Complete request]
  /\ stored_history channel_id (run e channel_id m st).2 = Msg <$> kept
  /\ length kept = 30.
Proof.
  intros Hempty Hlog Hlen. cbv zeta.
  pose proof (run_busy e channel_id m st log Hempty Hlog Hlen) as Hrun.
  cbv zeta in Hrun. rewrite Hrun.
  split; [done|]. split; [|split].
  - simpl. by rewrite <- app_assoc.
  - unfold record_call. apply stored_history_insert.
  - rewrite last_n_length, length_app, length_take, length_reverse.
    cbn [length]. lia.
Qed.

Lemma run_busy_channel_answers_witness :
  (run (with_channel_log (replicate 29 older_message) quiet_env) 1
       current_message initial_state).1
  = on_complete quiet_env 1
      (system_turn
         :: (turn_of <$> replicate 29 older_message ++ [current_message])).
Proof.
  apply (run_busy_channel_answers
           (with_channel_log (replicate 29 older_message) quiet_env) 1
           current_message initial_state (replicate 29 older_message)).
  - reflexivity.
  - reflexivity.
  - simpl. lia.
Defined.

(** ** What [run] and [on_message] leave alone *)

Global Instance other_channels_kept_preorder channel_id :
  PreOrder (other_channels_kept channel_id).
Proof.
  split.
  - by intros st.
  - intros st1 st2 st3 (Hf1 & Hu1 & Hh1) (Hf2 & Hu2 & Hh2).
    repeat split; try congruence.
    intros other Hne. by rewrite Hh2, Hh1.
Qed.

Section OtherChannels.

Variables (e : env) (channel_id : Z).

Lemma remote_other_channels {A} c (answer : nat -> outcome A) :
  frame (other_channels_kept channel_id) (remote c answer).
Proof. by intros st. Qed.

Lemma store_history_other_channels h :
  frame (other_channels_kept channel_id) (store_history channel_id h).
Proof.
  intros st. repeat split. intros other Hne. simpl.
  by rewrite lookup_insert_ne.
Qed.

Lemma send_each_other_channels pieces :
  frame (other_channels_kept channel_id) (send_each e pieces).
Proof.
  induction pieces as [|p pieces IH]; simpl.
  - apply frame_ret; apply _.
  - apply frame_bind; [apply _ | apply remote_other_channels | done].
Qed.

Lemma run_other_channels m :
  frame (other_channels_kept channel_id) (run e channel_id m).
Proof.
  unfold run, seed, append_message, complete, history.
  repeat first
    [ apply store_history_other_channels | apply remote_other_channels
    | apply frame_ret; apply _ | apply frame_read; apply _
    | apply frame_lift; apply _
    | apply frame_bind; [apply _ | |]
    | progress intros
    | match goal with
      | |- frame _ (match ?x with _ => _ end) => destruct x
      end ].
Qed.

Lemma forward_ambient_other_channels m :
  frame (other_channels_kept channel_id) (forward_ambient e channel_id m).
Proof.
  unfold forward_ambient, history, send_long_message.
  repeat first
    [ apply run_other_channels | apply send_each_other_channels
    | apply remote_other_channels
    | apply frame_ret; apply _ | apply frame_read; apply _
    | apply frame_bind; [apply _ | |]
    | progress intros
    | match goal with
      | |- frame _ (if ?x then _ else _) => destruct x
      end ].
Qed.

End OtherChannels.

(** A message that is a bot's or does not start with the prefix invokes
    no command: the handler goes on to the rest of its body. *)
Lemma on_message_no_command e channel_id m st :
  msg_author_bot m = true \/ Py.startswith PREFIX (msg_content m) = false ->
  on_message e channel_id m st = forward_ambient e channel_id m st.
Proof.
  intros Hplain. unfold on_message, process_commands, bind.
  by destruct Hplain as [-> | ->]; rewrite ?orb_true_r.
Qed.

(** X11.  A message handled in one channel changes neither the
    interactive flag, nor any user's session, nor the buffer of any other
    channel: this holds of [run], whether it answers or raises, and of the
    whole handler [on_message] for a message that invokes no command (a
    bot's message, or one that does not start with the prefix). *)
Theorem run_touches_one_channel e channel_id m st :
  other_channels_kept channel_id st (run e channel_id m st).2
  /\ (msg_author_bot m = true \/ Py.startswith PREFIX (msg_content m) = false ->
      other_channels_kept channel_id st (on_message e channel_id m st).2).
Proof.
  split; [apply run_other_channels|].
  intros Hplain. rewrite on_message_no_command by done.
  apply forward_ambient_other_channels.
Qed.

Lemma run_touches_one_channel_witness :
  other_channels_kept 1 initial_state
    (on_message quiet_env 1 current_message initial_state).2.
Proof.
  apply (run_touches_one_channel quiet_env 1 current_message initial_state).
  right. reflexivity.
Defined.

(** ** Long messages *)

Lemma chunks_piece_length content k piece :
  chunks content !! k = Some piece -> 1 <= Py.len piece <= 1900.
Proof.
  unfold chunks, Py.range. rewrite list_lookup_fmap.
  destruct (Py.range_from _ _ _ _ !! k) as [j|] eqn:Hj; [|done].
  intros [= <-].
  apply (range_from_lookup 1900 ltac:(lia)) in Hj as [_ Hlt].
  unfold Py.len, Py.slice in *.
  rewrite <- chars_length, chars_substring, length_take, length_drop, chars_length.
  lia.
Qed.

Lemma send_each_delivers e pieces : forall st,
  (forall k p, pieces !! k = Some p ->
               on_send e (length (trace st) + k) p = Ok tt) ->
  send_each e pieces st = (Ok tt, record_calls (Send <$> pieces) st).
Proof.
  induction pieces as [|p pieces IH]; intros st Hok.
  - simpl. unfold ret. by rewrite record_calls_nil.
  - cbn [send_each]. rewrite bind_send.
    pose proof (Hok 0 p eq_refl) as H0. rewrite Nat.add_0_r in H0.
    rewrite H0, IH.
    + by rewrite fmap_cons, record_calls_cons.
    + intros k q Hk. rewrite length_trace_record.
      replace (S (length (trace st)) + k) with (length (trace st) + S k) by lia.
      by apply Hok.
Qed.

Lemma send_each_stops e pieces : forall st k p ex,
  pieces !! k = Some p ->
  on_send e (length (trace st) + k) p = Raise ex ->
  (forall j q, j < k -> pieces !! j = Some q ->
               on_send e (length (trace st) + j) q = Ok tt) ->
  send_each e pieces st
  = (Raise ex, record_calls (Send <$> take (S k) pieces) st).
Proof.
  induction pieces as [|p0 pieces IH]; intros st k p ex Hk Hfail Hbefore;
    [done|].
  cbn [send_each]. rewrite bind_send.
  destruct k as [|k].
  - injection Hk as ->. rewrite Nat.add_0_r in Hfail. by rewrite Hfail.
  - pose proof (Hbefore 0 p0 ltac:(lia) eq_refl) as H0.
    rewrite Nat.add_0_r in H0. rewrite H0.
    rewrite (IH _ k p ex).
    + by rewrite firstn_cons, fmap_cons, record_calls_cons.
    + done.
    + rewrite length_trace_record.
      by replace (S (length (trace st)) + k) with (length (trace st) + S k) by lia.
    + intros j q Hj Hq. rewrite length_trace_record.
      replace (S (length (trace st)) + j) with (length (trace st) + S j) by lia.
      apply Hbefore; [lia | done].
Qed.

(** X12.  When the platform delivers what is sent, [send_long_message]
    returns after sending the pieces of the text, in order and nothing
    else; every message it sends has between 1 and 1900 characters, so an
    empty text sends nothing. *)
Theorem send_long_message_delivers e content st :
  sends_succeed e ->
  send_long_message e content st
  = (Ok tt, record_calls (Send <$> chunks content) st)
  /\ Forall (fun piece => 1 <= Py.len piece <= 1900) (chunks content)
  /\ (content = "" -> send_long_message e content st = (Ok tt, st)).
Proof.
  intros Hsend. split; [|split].
  - apply send_each_delivers. intros k p _. apply Hsend.
  - apply Forall_lookup. intros k piece. apply chunks_piece_length.
  - intros ->. done.
Qed.

Lemma send_long_message_delivers_witness :
  send_long_message quiet_env "hello" initial_state
  = (Ok tt, record_calls [Send "hello"] initial_state).
Proof.
  apply (send_long_message_delivers quiet_env "hello" initial_state).
  intros n text. reflexivity.
Defined.

(** X13.  [send_long_message] stops at the first piece the platform
    refuses: the failure is raised to the caller, the pieces before it
    have been sent and the pieces after it are not. *)
Theorem send_long_message_stops_at_failure e content st k piece ex :
  chunks content !! k = Some piece ->
  on_send e (length (trace st) + k) piece = Raise ex ->
  (forall j q, j < k -> chunks content !! j = Some q ->
               on_send e (length (trace st) + j) q = Ok tt) ->
  send_long_message e content st
  = (Raise ex, record_calls (Send <$> take (S k) (chunks content)) st).
Proof. apply send_each_stops. Qed.

Lemma send_long_message_stops_at_failure_witness :
  (send_long_message second_send_refused long_text initial_state).1
  = Raise (Error "Forbidden").
Proof.
  rewrite (send_long_message_stops_at_failure second_send_refused long_text
             initial_state 1 "a" (Error "Forbidden")).
  - reflexivity.
  - vm_compute. reflexivity.
  - reflexivity.
  - intros j q Hj Hq. assert (j = 0) as -> by lia. reflexivity.
Defined.

(** ** The handler of ambient messages *)

(** Past its guards, the handler is [run] followed by
    [send_long_message]. *)
Lemma on_message_passes e channel_id m st before :
  interactive_session_active st = false ->
  msg_author_bot m = false ->
  Py.startswith PREFIX (msg_content m) = false ->
  channel_log e (length (trace st)) = Ok before ->
  bot_silent e before ->
  on_message e channel_id m st
  = bind (run e channel_id m) (send_long_message e)
         (record_call (History 1) st).
Proof.
  intros Hflag Hbot Hprefix Hlog Hsilent.
  rewrite on_message_no_command by (by right).
  unfold forward_ambient. unfold bind at 1, read. rewrite Hflag, Hbot, Hprefix.
  cbn [orb]. unfold bind at 1, history, bind at 1, remote. rewrite Hlog.
  unfold ret.
  assert (Hguard :
    match take 1 (reverse before) with
    | last_msg :: _ =>
        (msg_author last_msg =? bot_user e)%Z
        && (Py.contains "What type of business or service are you looking for?"
                        (msg_content last_msg)
            || Py.contains "Please enter your 5-digit zip code:"
                           (msg_content last_msg))
    | [] => false
    end = false).
  { destruct (reverse before) as [|last_msg rest] eqn:Hrev; [done|].
    cbn [take].
    assert (Hin : last_msg ∈ before).
    { apply elem_of_reverse. rewrite Hrev. left. }
    unfold bot_silent in Hsilent. rewrite Forall_forall in Hsilent.
    apply Hsilent in Hin. apply Z.eqb_neq in Hin. by rewrite Hin. }
  by rewrite Hguard.
Qed.

(** X14.  In a channel with an empty buffer and at most 28 earlier
    messages, none of them the bot's, a user's message is not answered:
    the handler fetches the latest message, [run] fetches the history and
    raises the AttributeError, which leaves the handler; no completion is
    requested and nothing is sent. *)
Theorem on_message_first_message_unanswered e channel_id m st before log :
  interactive_session_active st = false ->
  msg_author_bot m = false ->
  Py.startswith PREFIX (msg_content m) = false ->
  channel_log e (length (trace st)) = Ok before ->
  bot_silent e before ->
  stored_history channel_id st = [] ->
  channel_log e (S (length (trace st))) = Ok log ->
  length log <= 28 ->
  (on_message e channel_id m st).1
  = Raise (Error "'dict' object has no attribute 'author'")
  /\ trace (on_message e channel_id m st).2
     = trace st ++ [History 1; History 30].
Proof.
  intros Hflag Hbot Hprefix Hbefore Hsilent Hempty Hlog Hlen.
  rewrite (on_message_passes e channel_id m st before) by done.
  unfold bind. rewrite (run_fresh e channel_id m _ log).
  - split; [done|]. simpl. by rewrite <- app_assoc.
  - done.
  - by rewrite length_trace_record.
  - done.
Qed.

Lemma on_message_first_message_unanswered_witness :
  (on_message quiet_env 1 current_message initial_state).1
  = Raise (Error "'dict' object has no attribute 'author'").
Proof.
  apply (on_message_first_message_unanswered quiet_env 1 current_message
           initial_state [] []).
  - reflexivity.
  - reflexivity.
  - reflexivity.
  - reflexivity.
  - constructor.
  - reflexivity.
  - reflexivity.
  - simpl. lia.
Defined.

(** X15.  Where the buffer of the channel holds messages, the bot has not
    spoken in the channel and the platform delivers what is sent, a
    user's message that is no command is answered outside a dialog: the
    handler fetches the latest message, requests one completion for the
    last 30 messages of the buffer with the new one, and sends the
    response in pieces of at most 1900 characters. *)
Theorem on_message_answers e channel_id m st before ms response :
  interactive_session_active st = false ->
  msg_author_bot m = false ->
  Py.startswith PREFIX (msg_content m) = false ->
  channel_log e (length (trace st)) = Ok before ->
  bot_silent e before ->
  stored_history channel_id st = Msg <$> ms ->
  ms <> [] ->
  sends_succeed e ->
  let request := system_turn :: (turn_of <$> Py.last_n 30 (ms ++ [m])) in
  on_complete e (S (length (trace st))) request = Ok response ->
  (on_message e channel_id m st).1 = Ok tt
  /\ trace (on_message e channel_id m st).2
     = trace st ++ History 1 :: Complete request :: (Send <$> chunks response).
Proof.
  intros Hflag Hbot Hprefix Hbefore Hsilent Hstored Hne Hsend request Hanswer.
  rewrite (on_message_passes e channel_id m st before) by done.
  unfold bind.
  pose proof (run_seeded e channel_id m (record_call (History 1) st) ms
                Hstored Hne) as Hrun.
  cbv zeta in Hrun. rewrite Hrun, length_trace_record. fold request.
  rewrite Hanswer.
  unfold send_long_message. rewrite send_each_delivers.
  - split; [done|]. simpl. by rewrite <- !app_assoc.
  - intros k p _. apply Hsend.
Qed.

Lemma on_message_answers_witness :
  (on_message answering_env 1 current_message seeded_state).1 = Ok tt.
Proof.
  apply (on_message_answers answering_env 1 current_message seeded_state
           [older_message] [older_message] "Hi there").
  - reflexivity.
  - reflexivity.
  - reflexivity.
  - reflexivity.
  - repeat constructor. simpl. lia.
  - reflexivity.
  - discriminate.
  - intros n text. reflexivity.
  - reflexivity.
Defined.

(** X16.  What the handler leaves to others.  For a message that starts
    with the command prefix it does what [process_commands] does and
    nothing more: the guard returns before any history is fetched or any
    completion requested.  For a message of a bot it does nothing at all.
    For a message without the prefix that arrives while the interactive
    flag is set it does nothing; and when such a message follows the
    bot's prompt for the business type or for the zipcode, as [get] sends
    them, it makes at most the one history call, requests no completion
    and sends nothing. *)
Theorem on_message_ignores e channel_id m st :
  (Py.startswith PREFIX (msg_content m) = true ->
   on_message e channel_id m st = process_commands e m st)
  /\ (msg_author_bot m = true -> on_message e channel_id m st = (Ok tt, st))
  /\ (Py.startswith PREFIX (msg_content m) = false ->
      interactive_session_active st = true ->
      on_message e channel_id m st = (Ok tt, st))
  /\ (Py.startswith PREFIX (msg_content m) = false ->
      forall log by_bot prompt,
        prompt = type_prompt \/ prompt = zip_prompt ->
        channel_log e (length (trace st))
        = Ok (log ++ [Message (bot_user e) by_bot prompt]) ->
        on_message e channel_id m st = (Ok tt, st)
        \/ on_message e channel_id m st = (Ok tt, record_call (History 1) st)).
Proof.
  split; [|split; [|split]].
  - intros Hprefix. unfold on_message, bind.
    destruct (process_commands e m st) as [[[]|ex] st1]; [|done].
    unfold forward_ambient, bind, read. by rewrite Hprefix, orb_true_r.
  - intros Hbot. rewrite on_message_no_command by (by left).
    unfold forward_ambient, bind, read. by rewrite Hbot.
  - intros Hprefix Hflag. rewrite on_message_no_command by (by right).
    unfold forward_ambient, bind, read. by rewrite Hflag, orb_true_r.
  - intros Hprefix log by_bot prompt Hprompt Hlog.
    rewrite on_message_no_command by (by right).
    destruct (msg_author_bot m || Py.startswith PREFIX (msg_content m)
              || interactive_session_active st) eqn:Hgate.
    { left. unfold forward_ambient. unfold bind at 1, read. by rewrite Hgate. }
    right. unfold forward_ambient. unfold bind at 1, read. rewrite Hgate.
    unfold bind at 1, history, bind at 1, remote. rewrite Hlog.
    unfold ret. rewrite reverse_app. simpl. rewrite Z.eqb_refl.
    by destruct Hprompt as [-> | ->].
Qed.

Lemma on_message_ignores_witness :
  on_message quiet_env 1 (Message 7 false "!ping") initial_state
  = (Ok tt, record_call (Send "Pong!") initial_state).
Proof.
  destruct (on_message_ignores quiet_env 1 (Message 7 false "!ping")
              initial_state) as (Hcommand & _).
  rewrite Hcommand; reflexivity.
Defined.

(** ** The questions of a dialog *)

Lemma lstrip_head s :
  Py.lstrip s = ""
  \/ exists c r, Py.lstrip s = String c r /\ Py.is_space c = false.
Proof.
  induction s as [|c s IH]; [by left|]. simpl.
  destruct (Py.is_space c) eqn:Hc; [done|]. right. by exists c, s.
Qed.

Lemma strip_idempotent s : Py.strip (Py.strip s) = Py.strip s.
Proof.
  unfold Py.strip.
  destruct (lstrip_head s) as [-> | (c & r & -> & Hc)]; [done|].
  assert (Hr : Py.rstrip (String c r) = String c (Py.rstrip r))
    by (simpl; by rewrite Hc).
  rewrite Hr. cbn [Py.lstrip]. rewrite Hc, <- Hr.
  apply rstrip_idempotent.
Qed.

Lemma spec_question_wellformed line q :
  spec_question line = Some q -> q <> "" /\ Py.strip q = q.
Proof.
  unfold spec_question.
  destruct (numbered_rest (Py.strip line)) as [rest|]; [|done].
  cbv zeta. destruct (Py.strip rest) as [|c r] eqn:Hq; [done|].
  cbn [Py.is_empty]. intros [= <-]. split; [done|].
  rewrite <- Hq. apply strip_idempotent.
Qed.

Lemma parse_questions_wellformed response :
  Forall (fun q => q <> "" /\ Py.strip q = q) (parse_questions response).
Proof.
  unfold parse_questions. rewrite parse_lines_spec. cbn [app].
  apply Forall_forall. intros q Hq.
  apply list_elem_of_omap in Hq as (line & _ & Hline).
  by apply (spec_question_wellformed line).
Qed.

Lemma fallback_questions_wellformed :
  Forall (fun q => q <> "" /\ Py.strip q = q) fallback_questions.
Proof. repeat constructor; done. Qed.

(** X17.  Whatever the completion service answers, the list of questions
    [get_dynamic_questions] returns is not empty, and each question in it
    is a non-empty text without white space at either end. *)
Theorem get_dynamic_questions_wellformed e business_type st questions :
  (get_dynamic_questions e business_type st).1 = Ok questions ->
  questions <> []
  /\ Forall (fun q => q <> "" /\ Py.strip q = q) questions.
Proof.
  unfold get_dynamic_questions, try_except, bind, run_with_text, complete,
    remote.
  destruct (on_complete e _ _) as [response|ex]; simpl.
  - pose proof (parse_questions_wellformed response) as Hparsed.
    destruct (parse_questions response) as [|q qs]; intros [= <-].
    + split; [done | apply fallback_questions_wellformed].
    + done.
  - destruct (is_exception ex); simpl; [|done].
    intros [= <-]. split; [done | apply fallback_questions_wellformed].
Qed.

Lemma get_dynamic_questions_wellformed_witness :
  fallback_questions <> []
  /\ Forall (fun q => q <> "" /\ Py.strip q = q) fallback_questions.
Proof.
  apply (get_dynamic_questions_wellformed quiet_env "dentist" initial_state).
  reflexivity.
Defined.

(** ** What [get] leaves alone *)

Global Instance one_session_touched_preorder author :
  PreOrder (one_session_touched author).
Proof.
  split.
  - intros st. repeat split. exists []. by rewrite app_nil_r.
  - intros st1 st2 st3 (Hh1 & Hu1 & cs1 & Ht1 & HP1)
                       (Hh2 & Hu2 & cs2 & Ht2 & HP2).
    split; [congruence|]. split.
    + intros other Hne. by rewrite Hu2, Hu1.
    + exists (cs1 ++ cs2). split; [|by apply Forall_app].
      by rewrite Ht2, Ht1, app_assoc.
Qed.

Section OneSession.

Variables (e : env) (author : Z).

Lemma record_one_session c st : dialog_call c -> one_session_touched author st (record_call c st).
Proof.
  intros Hc. repeat split. exists [c]. split; [done | by constructor].
Qed.

Lemma send_one_session text : frame (one_session_touched author) (send e text).
Proof. intros st. by apply record_one_session. Qed.

Lemma wait_for_one_session t : frame (one_session_touched author) (wait_for e t).
Proof. intros st. by apply record_one_session. Qed.

Lemma frame_try_finally {A} (Q : state -> state -> Prop) `{!PreOrder Q}
      (body : M A) (fin : M unit) :
  frame Q body -> frame Q fin -> frame Q (try_finally body fin).
Proof.
  intros Hb Hf st. unfold try_finally. specialize (Hb st).
  destruct (body st) as [r st1]. specialize (Hf st1).
  destruct (fin st1) as [[[]|ex] st2]; simpl in *; by etrans.
Qed.

Lemma set_interactive_one_session b : frame (one_session_touched author) (modify (set_interactive b)).
Proof. intros st. repeat split. exists []. by rewrite app_nil_r. Qed.

Lemma get_dynamic_questions_one_session business_type :
  frame (one_session_touched author) (get_dynamic_questions e business_type).
Proof.
  unfold get_dynamic_questions, run_with_text, complete.
  apply frame_try_except; [apply _ | | intros; apply frame_ret; apply _].
  apply frame_bind; [apply _ | | intros; apply frame_ret; apply _].
  intros st. by apply record_one_session.
Qed.

Lemma ask_questions_one_session total questions : forall i answers,
  frame (one_session_touched author) (ask_questions e total i questions answers).
Proof.
  induction questions as [|q questions IH]; intros i answers; simpl.
  - apply frame_ret; apply _.
  - repeat first
      [ apply send_one_session | apply wait_for_one_session | apply IH
      | apply frame_ret; apply _
      | apply frame_bind; [apply _ | |]
      | apply frame_try_except_timeout; [apply _ | |]
      | progress intros
      | match goal with
        | |- frame _ (match ?x with _ => _ end) => destruct x
        end ].
Qed.

Lemma get_dialog_one_session : frame (one_session_touched author) (get_dialog e author).
Proof.
  unfold get_dialog.
  repeat first
    [ apply send_one_session | apply wait_for_one_session
    | apply get_dynamic_questions_one_session
    | apply ask_questions_one_session
    | apply frame_ret; apply _
    | apply frame_bind; [apply _ | |]
    | progress intros
    | match goal with
      | |- frame _ (match ?x with _ => _ end) => destruct x
      | |- frame _ (if ?x then _ else _) => destruct x
      end ].
  intros st. repeat split.
  - intros other Hne. simpl. by rewrite lookup_insert_ne.
  - exists []. by rewrite app_nil_r.
Qed.

Lemma get_one_session : frame (one_session_touched author) (get e author).
Proof.
  unfold get.
  apply frame_bind; [apply _ | apply set_interactive_one_session |].
  intros _. apply frame_try_finally;
    [apply _ | | apply set_interactive_one_session].
  apply frame_try_except; [apply _ | apply get_dialog_one_session |].
  intros; apply send_one_session.
Qed.

End OneSession.

(** X18.  However a run of [get] goes, it leaves every channel's history
    buffer and every other user's session as they were, and the calls it
    makes are messages sent, replies awaited and completion requests:
    it makes no Yelp request, fetches no history and deletes nothing. *)
Theorem get_touches_one_session e author st :
  one_session_touched author st (get e author st).2.
Proof. apply get_one_session. Qed.

(** ** Stored sessions are valid *)

Global Instance keeps_sessions_valid_preorder : PreOrder keeps_sessions_valid.
Proof.
  split.
  - intros st Hvalid. exact Hvalid.
  - intros st1 st2 st3 H12 H23 H1. by apply H23, H12.
Qed.

Section SessionsValid.

Variable e : env.







End SessionsValid.



(** ** From a stored session to a search *)

Lemma yelp_search_queries e term z st :
  Re.matches Re.zip_pattern z = true ->
  exists calls,
    trace (yelp_search e term z st).2 = trace st ++ SearchQuery term z :: calls.
Proof.
  intros Hz. unfold yelp_search. rewrite Hz. cbn [negb].
  unfold try_except, bind, search_query, remote.
  destruct (on_search_query e _ _ _) as [[[|b bs]|]|ex].
  - by exists [].
  - destruct (each_business_calls_only e (b :: bs) 1 [listing_header term z]
                (record_call (SearchQuery term z) st))
      as (_ & _ & _ & calls & Ht & _).
    exists calls.
    destruct (each_business e 1 (b :: bs) _ _) as [[results|ex] st'];
      simpl in *.
    + by rewrite Ht, <- app_assoc.
    + destruct (is_exception ex); simpl; by rewrite Ht, <- app_assoc.
  - by exists [].
  - exists []. by destruct (is_exception ex).
Qed.

(** X20.  For a user whose session is valid, as every stored session is,
    [list_businesses] and [draft] do not stop at the zipcode check of the
    search: once their first message is sent, the next call is the Yelp
    search query for the stored business type and zipcode. *)
Theorem stored_session_is_searched e author st s :
  valid_session s ->
  user_context st !! author = Some s ->
  sends_succeed e ->
  (exists rest,
     trace (list_businesses e author st).2
     = trace st ++ Send (list_status s)
         :: SearchQuery (business_type s) (zipcode s) :: rest)
  /\ (exists first rest,
        trace (draft e author st).2
        = trace st ++ Send first
            :: SearchQuery (business_type s) (zipcode s) :: rest).
Proof.
  intros [_ Hzip] Hs Hsend.
  assert (Hz : Re.matches Re.zip_pattern (zipcode s) = true)
    by (apply zip_pattern_accepts; by left).
  split.
  - unfold list_businesses. unfold bind at 1, read. rewrite Hs.
    rewrite bind_send, Hsend. fold (list_status s).
    set (st1 := record_call (Send (list_status s)) st).
    destruct (yelp_search_queries e (business_type s) (zipcode s) st1 Hz)
      as [calls Hcalls].
    unfold bind at 1.
    destruct (yelp_search e (business_type s) (zipcode s) st1)
      as [[found|ex] st2]; simpl in Hcalls.
    + assert (Hrest : frame calls_only
                (delete e ;;
                 send_each e (chunks (Re.sub website_line "" found.1)))).
      { apply frame_bind; [apply _ | apply remote_calls_only |].
        intros; apply send_each_calls_only. }
      destruct (Hrest st2) as (_ & _ & _ & calls' & Ht & _).
      exists (calls ++ calls'). rewrite Ht, Hcalls. simpl.
      by rewrite <- !app_assoc.
    + exists calls. simpl. rewrite Hcalls. simpl. by rewrite <- !app_assoc.
  - unfold draft. unfold bind at 1, read. rewrite Hs.
    rewrite bind_send, Hsend.
    set (first := "üìù Drafting personalized outreach messages for each business...").
    set (st1 := record_call (Send first) st).
    destruct (yelp_search_queries e (business_type s) (zipcode s) st1 Hz)
      as [calls Hcalls].
    unfold bind at 1.
    destruct (yelp_search e (business_type s) (zipcode s) st1)
      as [[found|ex] st2]; simpl in Hcalls.
    + destruct (draft_each_calls_only e s found.2 st2)
        as (_ & _ & _ & calls' & Ht & _).
      exists first, (calls ++ calls'). rewrite Ht, Hcalls. simpl.
      by rewrite <- !app_assoc.
    + exists first, calls. simpl. rewrite Hcalls. simpl.
      by rewrite <- !app_assoc.
Qed.

Lemma stored_session_is_searched_witness :
  exists rest,
    trace (list_businesses quiet_env 7 state_with_session).2
    = trace state_with_session ++ Send (list_status earlier_session)
        :: SearchQuery "plumber" "10001" :: rest.
Proof.
  apply (stored_session_is_searched quiet_env 7 state_with_session
           earlier_session).
  - split; [simpl; lia | reflexivity].
  - reflexivity.
  - intros n text. reflexivity.
Defined.

(** ** One drafted message for each business *)

Lemma draft_dynamic_message_runs e business_type answers st :
  ordinary_failures e ->
  exists message,
    draft_dynamic_message e business_type answers st
    = (Ok message,
       record_call
         (Complete [system_turn;
                    Turn "user" (draft_prompt business_type answers)]) st).
Proof.
  intros Hord.
  unfold draft_dynamic_message, try_except, bind, run_with_text, complete,
    remote.
  destruct Hord as (_ & _ & _ & _ & Hcomplete & _).
  specialize (Hcomplete (length (trace st))
                [system_turn; Turn "user" (draft_prompt business_type answers)]).
  destruct (on_complete e _ _) as [response|ex]; simpl in *.
  - by eexists.
  - rewrite Hcomplete. by eexists.
Qed.

Lemma filter_completion_sends pieces :
  List.filter is_completion (Send <$> pieces) = [].
Proof. induction pieces as [|p pieces IH]; [done | by simpl]. Qed.

Lemma draft_each_runs e s bs : forall st,
  ordinary_failures e ->
  sends_succeed e ->
  exists calls,
    draft_each e s bs st = (Ok tt, record_calls calls st)
    /\ List.filter is_completion calls
       = (fun b => Complete (draft_request s b)) <$> bs.
Proof.
  induction bs as [|b bs IH]; intros st Hord Hsend.
  - exists []. simpl. unfold ret. by rewrite record_calls_nil.
  - cbn [draft_each]. unfold bind at 1.
    destruct (draft_dynamic_message_runs e (business_type s)
                (Py.dict_set (answers s) "Business Name" (biz_name b)) st Hord)
      as [message ->].
    cbv zeta. unfold bind at 1, send_long_message.
    rewrite send_each_delivers by (intros k p _; apply Hsend).
    match goal with
    | |- context [record_calls (Send <$> ?pieces) _] => set (sent := pieces)
    end.
    destruct (IH (record_calls (Send <$> sent)
                    (record_call (Complete (draft_request s b)) st)) Hord Hsend)
      as (calls & Hrun & Hfilter).
    exists (Complete (draft_request s b) :: (Send <$> sent) ++ calls).
    split.
    + unfold draft_request in *. rewrite Hrun.
      by rewrite record_calls_app, record_calls_cons.
    + cbn [List.filter is_completion].
      by rewrite List.filter_app, filter_completion_sends, Hfilter.
Qed.

(** X21.  Where calls fail with ordinary exceptions only and the platform
    delivers what is sent, the loop of [draft] returns after requesting
    exactly one completion for each business, in the order of the
    listing, each with the user's answers and the name of that business;
    a business without a Yelp url is treated like the others. *)
Theorem draft_each_covers_every_business e s bs st :
  ordinary_failures e ->
  sends_succeed e ->
  exists calls,
    draft_each e s bs st = (Ok tt, record_calls calls st)
    /\ List.filter is_completion calls
       = (fun b => Complete (draft_request s b)) <$> bs.
Proof. intros Hord Hsend. by apply draft_each_runs. Qed.

Lemma draft_each_covers_every_business_witness :
  exists calls,
    draft_each quiet_env earlier_session [no_link_business] initial_state
    = (Ok tt, record_calls calls initial_state)
    /\ List.filter is_completion calls
       = [Complete (draft_request earlier_session no_link_business)].
Proof.
  apply (draft_each_covers_every_business quiet_env earlier_session
           [no_link_business] initial_state).
  - repeat split; intros; exact I || reflexivity.
  - intros n text. reflexivity.
Defined.

(** X22.  The loop of [initiate] reads the url of a business with
    [business['url']]: at the first business of the listing that has no
    url it raises the KeyError, after the completion request for that
    business and before any message about it is sent.  The completions
    requested are those of the businesses up to that one, in order;
    nothing is requested or sent for the businesses after it. *)
Theorem initiate_each_stops_without_url e s pre b rest : forall i st,
  ordinary_failures e ->
  sends_succeed e ->
  Forall (fun b' => biz_url b' <> None) pre ->
  biz_url b = None ->
  exists calls,
    initiate_each e s i (pre ++ b :: rest) st
    = (Raise (Error "'url'"), record_calls calls st)
    /\ List.filter is_completion calls
       = (fun b' => Complete (draft_request s b')) <$> (pre ++ [b])
    /\ last calls = Some (Complete (draft_request s b)).
Proof.
  induction pre as [|b0 pre IH]; intros i st Hord Hsend Hpre Hb.
  - cbn [app initiate_each]. unfold bind at 1.
    destruct (draft_dynamic_message_runs e (business_type s)
                (Py.dict_set (answers s) "Business Name" (biz_name b)) st Hord)
      as [message ->].
    rewrite Hb. exists [Complete (draft_request s b)]. done.
  - apply Forall_cons in Hpre as [Hurl Hpre].
    cbn [app initiate_each]. unfold bind at 1.
    destruct (draft_dynamic_message_runs e (business_type s)
                (Py.dict_set (answers s) "Business Name" (biz_name b0)) st Hord)
      as [message ->].
    destruct (biz_url b0) as [url|]; [|done].
    unfold bind at 1, ret. unfold bind at 1, send_long_message.
    rewrite send_each_delivers by (intros k p _; apply Hsend).
    match goal with
    | |- context [record_calls (Send <$> ?pieces) _] => set (sent := pieces)
    end.
    destruct (IH (S i)
                (record_calls (Send <$> sent)
                   (record_call (Complete (draft_request s b0)) st))
                Hord Hsend Hpre Hb)
      as (calls & Hrun & Hfilter & Hlast).
    exists (Complete (draft_request s b0) :: (Send <$> sent) ++ calls).
    split; [|split].
    + unfold draft_request in *. rewrite Hrun.
      by rewrite record_calls_app, record_calls_cons.
    + cbn [List.filter is_completion].
      by rewrite List.filter_app, filter_completion_sends, Hfilter.
    + destruct calls as [|c calls]; [done|].
      rewrite last_cons, last_app, Hlast. done.
Qed.

Lemma initiate_each_stops_without_url_witness :
  exists calls,
    initiate_each quiet_env earlier_session 1
      ([first_business] ++ no_link_business :: [first_business]) initial_state
    = (Raise (Error "'url'"), record_calls calls initial_state)
    /\ List.filter is_completion calls
       = (fun b' => Complete (draft_request earlier_session b'))
           <$> ([first_business] ++ [no_link_business])
    /\ last calls
       = Some (Complete (draft_request earlier_session no_link_business)).
Proof.
  apply (initiate_each_stops_without_url quiet_env earlier_session
           [first_business] no_link_business [first_business] 1 initial_state).
  - repeat split; intros; exact I || reflexivity.
  - intros n text. reflexivity.
  - repeat constructor. discriminate.
  - reflexivity.
Defined.
